(** * velenium: visual element search over a screenshot

    A shallow embedding of [velenium/__init__.py]: the [VisualMatch] and
    [VisualElement] classes, the multi-scale search [_find_matches], the
    ordering in [_search_all_matches] and the cached accessors.

    Conventions.
    - Python [int] is [Z]; [float] values (similarity scores, scale factors,
      the resize ratio) are rationals [Q]: every finite double is a rational
      and the comparisons the code makes are exact on them.  Products such as
      [loc * r] are taken exactly before [int] truncates them.
    - OpenCV / imutils are an interface ([OpenCV]); the file system, the
      template files and the screen are the [World].
    - A method is a function from the object to an outcome and the object
      after the call; an exception keeps the mutations made before it. *)

From Stdlib Require Import ZArith QArith List String Ascii Bool Lia.
From Stdlib Require Import Sorted Permutation DecimalString Lqa.
Import ListNotations.

Local Open Scope Z_scope.

(** ** Constants *)

Definition SIMILARITY_ORDER : Z := 0.
Definition VERTICAL_ORDER : Z := 1.
Definition HORIZONTAL_ORDER : Z := 2.

Inductive cv_method : Type := CV_CCOEFF | CV_CCORR | CV_SQDIFF.

(** ** Python helpers *)

(** [int(q)] for a float: truncation towards zero. *)
Definition int (q : Q) : Z := Z.quot (Qnum q) (Z.pos (Qden q)).

(** [str(n)] for an int, as an f-string prints it. *)
Definition str (n : Z) : string := NilZero.string_of_int (Z.to_int n).

(** [n in range(m)]. *)
Definition in_range (n m : Z) : bool := (0 <=? n) && (n <? m).

(** [a > b] and [a <= b] on floats. *)
Definition fle (a b : Q) : bool := Qle_bool a b.
Definition fgt (a b : Q) : bool := negb (Qle_bool a b).

(** [np.linspace(start, stop, num)]. *)
Definition linspace (start stop : Q) (num : nat) : list Q :=
  map (fun i => (start + inject_Z (Z.of_nat i) * ((stop - start) / inject_Z (Z.of_nat (num - 1))))%Q)
      (seq 0 num).

(** [np.linspace(0.2, 1.0, 20)[::-1]]: the scales, largest first. *)
Definition scales : list Q := rev (linspace (2 # 10) 1 20).
Arguments scales : simpl never.

(** [l[i]] on a Python list: negative indices count from the end; [None]
    stands for [IndexError]. *)
Definition py_index {A : Type} (l : list A) (i : Z) : option A :=
  let n := Z.of_nat (List.length l) in
  if (0 <=? i) && (i <? n) then nth_error l (Z.to_nat i)
  else if (- n <=? i) && (i <? 0) then nth_error l (Z.to_nat (n + i))
  else None.

(** [l.sort(key=...)] is stable; [le_key a b] says that [a] may stay in front
    of [b].  Insertion from the right keeps equal keys in their order. *)
Section Sort.
Context {A : Type} (le_key : A -> A -> bool).

Fixpoint insert_sorted (a : A) (l : list A) : list A :=
  match l with
  | [] => [a]
  | b :: l' => if le_key a b then a :: b :: l' else b :: insert_sorted a l'
  end.

Fixpoint list_sort (l : list A) : list A :=
  match l with
  | [] => []
  | a :: l' => insert_sorted a (list_sort l')
  end.
End Sort.

(** [sub in s] on strings. *)
Fixpoint contains (sub s : string) : bool :=
  String.prefix sub s ||
  match s with
  | EmptyString => false
  | String _ s' => contains sub s'
  end.

(** ** [glob.glob] and [os.path] *)

Definition is_magic_char (c : ascii) : bool :=
  (Ascii.eqb c "*" || Ascii.eqb c "?" || Ascii.eqb c "[")%char.

(** [glob.has_magic]: the pattern holds one of [*], [?], [[]. *)
Fixpoint has_magic (s : string) : bool :=
  match s with
  | EmptyString => false
  | String c s' => is_magic_char c || has_magic s'
  end.

(** The last component of a path is empty ([os.path.split(p)[1] == '']). *)
Fixpoint basename_empty (s : string) : bool :=
  match s with
  | EmptyString => true
  | String c EmptyString => Ascii.eqb c "/"
  | String _ s' => basename_empty s'
  end.

(** ** The OpenCV interface

    The operations are taken where they succeed: a template file that is a
    readable image, a screenshot that decodes, an image that [matchTemplate]
    accepts.  An error raised inside OpenCV is outside this interface. *)

Class OpenCV : Type := {
  image : Type;                       (* a grayscale array *)
  scoremap : Type;                    (* the result of matchTemplate *)
  shape : image -> Z * Z;             (* (rows, columns) *)
  resize : image -> Z -> image;       (* imutils.resize(img, width=...) *)
  matchTemplate : image -> image -> cv_method -> scoremap;
  minMaxLoc : scoremap -> Q * Q * (Z * Z) * (Z * Z);
  rectangle : image -> Z * Z -> Z * Z -> image   (* filled, black *)
}.

(** ** Records *)

(** [VisualMatch]: the [driver] field is a reference to the element's driver
    and is left to the element. *)
Record VisualMatch : Type := mkMatch {
  x : Z;
  y : Z;
  width : Z;
  height : Z;
  msimilarity : Q
}.

(** The driver, as far as the search sees it: how many screenshots it has
    handed out. *)
Record WebDriver : Type := { screenshots : nat }.

Record VisualElement : Type := mkElement {
  driver : WebDriver;
  path : string;
  order : Z;
  disposal : Z;
  name : string;
  similarity : Q;
  method : cv_method;
  max_occurrences : Z;
  _debug : bool;
  _searched : bool;
  matches : list VisualMatch
}.

Definition set_matches (s : VisualElement) (ms : list VisualMatch) : VisualElement :=
  mkElement (driver s) (path s) (order s) (disposal s) (name s) (similarity s)
            (method s) (max_occurrences s) (_debug s) (_searched s) ms.

Definition set_searched (s : VisualElement) (b : bool) : VisualElement :=
  mkElement (driver s) (path s) (order s) (disposal s) (name s) (similarity s)
            (method s) (max_occurrences s) (_debug s) b (matches s).

Definition set_driver (s : VisualElement) (d : WebDriver) : VisualElement :=
  mkElement d (path s) (order s) (disposal s) (name s) (similarity s)
            (method s) (max_occurrences s) (_debug s) (_searched s) (matches s).

Definition set_similarity (s : VisualElement) (t : Q) : VisualElement :=
  mkElement (driver s) (path s) (order s) (disposal s) (name s) t
            (method s) (max_occurrences s) (_debug s) (_searched s) (matches s).

(** [VisualElement.__init__], with [name] already chosen. *)
Definition new_element (path : string) (order disposal : Z) (similarity : Q)
           (method : cv_method) (name : string) : VisualElement :=
  mkElement {| screenshots := 0 |} path order disposal name similarity method
            16 false false [].

(** ** Outcomes and the method monad *)

Inductive exn : Type := Exception (msg : string).

Inductive outcome (A : Type) : Type :=
| Ok (a : A)
| Raise (e : exn).
Arguments Ok {A} a.
Arguments Raise {A} e.

Definition M (A : Type) : Type := VisualElement -> outcome A * VisualElement.

Definition ret {A} (a : A) : M A := fun s => (Ok a, s).
Definition raise {A} (e : exn) : M A := fun s => (Raise e, s).
Definition bind {A B} (m : M A) (k : A -> M B) : M B :=
  fun s => match m s with
           | (Ok a, s') => k a s'
           | (Raise e, s') => (Raise e, s')
           end.
Definition get : M VisualElement := fun s => (Ok s, s).
Definition put (s : VisualElement) : M unit := fun _ => (Ok tt, s).

Notation "x <- m ;; k" := (bind m (fun x => k))
  (at level 61, m at next level, right associativity).
Notation "m ;;; k" := (bind m (fun _ => k))
  (at level 61, right associativity).

(** [for a in l: body(a)]. *)
Fixpoint for_each {A} (l : list A) (body : A -> M unit) : M unit :=
  match l with
  | [] => ret tt
  | a :: l' => body a ;;; for_each l' body
  end.

(** ** The world outside the program *)

Record World `{OpenCV} : Type := {
  lexists : string -> bool;            (* os.path.lexists *)
  isfile : string -> bool;             (* os.path.isfile *)
  isdir : string -> bool;              (* os.path.isdir *)
  glob_magic : string -> list string;  (* what a wildcard pattern expands to *)
  imread_gray : string -> image;       (* cv.imread, then cv.cvtColor(_, BGR2GRAY) *)
  screenshot_gray : nat -> image       (* the n-th screenshot, decoded, in gray *)
}.

Section Velenium.
Context `{CV : OpenCV}.

(** [glob.glob(pathname)]: a pattern without wildcard characters yields
    itself when the file-system entry exists and nothing otherwise (a
    trailing slash asks for a directory); a wildcard pattern yields what the
    file system holds for it. *)
Definition glob (wd : World) (pathname : string) : list string :=
  if has_magic pathname then glob_magic wd pathname
  else if basename_empty pathname
       then (if isdir wd pathname then [pathname] else [])
       else (if lexists wd pathname then [pathname] else []).

(** *** [VisualElement.reset_object] *)
Definition reset_object : M unit :=
  self <- get ;;
  put (set_searched self false) ;;;
  self <- get ;;
  put (set_matches self []).

(** *** [VisualElement._get_bounds] *)
Definition _get_bounds (loc : Z * Z) (w h : Z) (r : Q) : Z * Z * Z * Z :=
  let start_x := int (inject_Z (fst loc) * r) in
  let start_y := int (inject_Z (snd loc) * r) in
  let end_x := int (inject_Z (fst loc + w) * r) in
  let end_y := int (inject_Z (snd loc + h) * r) in
  (start_x, start_y, end_x, end_y).

(** [VisualMatch(self.driver, start_x + int(w / 2), start_y + int(h / 2),
    w, h, max_val)] after [_get_bounds(max_loc, w, h, r)]. *)
Definition new_match (max_loc : Z * Z) (w h : Z) (r max_val : Q) : VisualMatch :=
  let '(start_x, start_y, _, _) := _get_bounds max_loc w h r in
  mkMatch (start_x + int (inject_Z w / 2)) (start_y + int (inject_Z h / 2))
          w h max_val.

(** The bookkeeping tuple [(max_val, max_loc, r, resized)]. *)
Definition occurrence_t : Type := Q * (Z * Z) * Q * image.

(** How the bookkeeping of the scale loop under a threshold [t'] (the
    tuple [occ']) stands to the one under a lower threshold ([occ]): it is
    still empty while the other holds at most a score that [t'] rejects, or
    both hold the same tuple. *)
Definition occ_inv (t' : Q) (occ occ' : option occurrence_t) : Prop :=
  match occ' with
  | None => match occ with
            | None => True
            | Some (v, _, _, _) => (v <= t')%Q
            end
  | Some (v', _, _, _) => occ = occ' /\ (t' < v')%Q
  end.

(** The loop over the scales in [_find_matches]. *)
Fixpoint scale_loop (gray template : image) (h w : Z) (meth : cv_method)
         (sim : Q) (scs : list Q) (occurrence : option occurrence_t)
  : option occurrence_t :=
  match scs with
  | [] => occurrence
  | scale :: rest =>
      let resized := resize gray (int (inject_Z (snd (shape gray)) * scale)) in
      let r := (inject_Z (snd (shape gray)) / inject_Z (snd (shape resized)))%Q in
      if (fst (shape resized) <? h) || (snd (shape resized) <? w)
      then occurrence                                         (* break *)
      else
        let result := matchTemplate resized template meth in
        let '(_, max_val, _, max_loc) := minMaxLoc result in
        if fle max_val sim
        then scale_loop gray template h w meth sim rest occurrence  (* continue *)
        else
          match occurrence with
          | None =>
              scale_loop gray template h w meth sim rest
                         (Some (max_val, max_loc, r, resized))
          | Some (best_val, _, _, _) =>
              if fgt max_val best_val
              then scale_loop gray template h w meth sim rest
                              (Some (max_val, max_loc, r, resized))
              else scale_loop gray template h w meth sim rest occurrence
          end
  end.

(** The loop [for i in range(self.max_occurrences)] in [_find_matches]:
    cover the previous best match, match again, stop below the threshold. *)
Fixpoint cover_loop (n : nat) (template : image) (h w : Z) (meth : cv_method)
         (sim r : Q) (resized : image) (max_loc : Z * Z)
         (ms : list VisualMatch) : list VisualMatch :=
  match n with
  | O => ms
  | S n' =>
      let resized := rectangle resized (fst max_loc, snd max_loc)
                               (fst max_loc + w, snd max_loc + h) in
      let result := matchTemplate resized template meth in
      let '(_, max_val, _, max_loc) := minMaxLoc result in
      if fle max_val sim
      then ms                                                 (* break *)
      else cover_loop n' template h w meth sim r resized max_loc
                      (ms ++ [new_match max_loc w h r max_val])
  end.

(** *** [VisualElement._find_matches] *)
Definition _find_matches (wd : World) (template_path : string) : M unit :=
  self <- get ;;
  if negb (isfile wd template_path) then
    raise (Exception ("Template route doesn't exist: " ++ template_path))
  else if negb (in_range (disposal self) 2) then
    raise (Exception ("Disposal priority not valid: " ++ str (disposal self)))
  else if negb (in_range (order self) (max_occurrences self)) then
    raise (Exception ("Order above max occurrences: " ++ str (order self)
                      ++ " > " ++ str (max_occurrences self)))
  else
    let template := imread_gray wd template_path in
    let '(h, w) := shape template in
    let gray := screenshot_gray wd (screenshots (driver self)) in
    put (set_driver self {| screenshots := S (screenshots (driver self)) |}) ;;;
    self <- get ;;
    match scale_loop gray template h w (method self) (similarity self) scales None with
    | None => ret tt
    | Some (max_val, max_loc, r, resized) =>
        put (set_matches self
               (cover_loop (Z.to_nat (max_occurrences self)) template h w
                           (method self) (similarity self) r resized max_loc
                           (matches self ++ [new_match max_loc w h r max_val])))
    end.

(** *** [VisualElement._search_all_matches] *)
Definition _search_all_matches (wd : World) : M unit :=
  reset_object ;;;
  self <- get ;;
  for_each (glob wd (path self)) (_find_matches wd) ;;;
  self <- get ;;
  (if disposal self =? VERTICAL_ORDER then
     put (set_matches self (list_sort (fun a b => y a <=? y b) (matches self)))
   else if disposal self =? HORIZONTAL_ORDER then
     put (set_matches self (list_sort (fun a b => x a <=? x b) (matches self)))
   else if disposal self =? SIMILARITY_ORDER then
     put (set_matches self
            (list_sort (fun a b => fle (msimilarity b) (msimilarity a))
                       (matches self)))
   else ret tt) ;;;
  self <- get ;;
  put (set_searched self true).

(** [self.matches if self._searched else self._search_all_matches().matches] *)
Definition cached_or_search (wd : World) : M (list VisualMatch) :=
  self <- get ;;
  if _searched self then ret (matches self)
  else (_search_all_matches wd ;;; self <- get ;; ret (matches self)).

(** *** [__len__], [__getitem__], [__iter__], [match] *)
Definition __len__ (wd : World) : M Z :=
  ms <- cached_or_search wd ;;
  ret (Z.of_nat (List.length ms)).

Definition __getitem__ (wd : World) (i : Z) : M VisualMatch :=
  ms <- cached_or_search wd ;;
  match py_index ms i with
  | Some m => ret m
  | None =>
      self <- get ;;
      raise (Exception ("Index above matches: " ++ str (order self) ++ " > "
                        ++ str (Z.of_nat (List.length (matches self)))))
  end.

(** The iterator is given by the sequence it runs over. *)
Definition __iter__ (wd : World) : M (list VisualMatch) :=
  cached_or_search wd.

Definition match_ (wd : World) : M VisualMatch := __getitem__ wd 0.

(** *** [VisualElement.is_visible] *)
Definition is_visible (wd : World) : M bool :=
  _search_all_matches wd ;;;
  self <- get ;;
  ret (match matches self with [] => false | _ :: _ => true end).

End Velenium.

(** ** Waiting and clicking

    [wait_until_visible], [wait_until_not_visible], [wait_until_clickable],
    [click] and [VisualMatch.click].  The loops read the wall clock and sleep;
    what they see of the outside is an [Environment]: the world met by each
    call of [is_visible] and each reading of [datetime.now()].
    [time.sleep(1)] shows only in how the readings advance.  A timeout is
    an [int], as the default [10] is.  A loop that may run for ever is given
    fuel: [None] is a loop still running when the fuel is out. *)

Record Environment `{OpenCV} : Type := {
  screen_at : nat -> World;   (* the world at the k-th call of is_visible *)
  now : nat -> Q              (* the k-th reading of datetime.now(), in seconds *)
}.

(** [TimeoutException] beside the plain [Exception]s of the search. *)
Inductive py_exception : Type :=
| PyException (e : exn)
| TimeoutException (msg : string).

Inductive wait_result : Type :=
| Returned
| Raised (e : py_exception).

(** What [click] ends in: the tap [VisualMatch.click] sends to the driver
    ([press(x, y).release().perform()]), or an exception. *)
Inductive click_result : Type :=
| Tapped (tx ty : Z)
| ClickRaised (e : py_exception).

(** The double-quote character of the messages. *)
Definition dquote : string := String (ascii_of_nat 34) EmptyString.

Section Poller.
Context `{CV : OpenCV}.

(** The loop shared by the two waits:
    [while is_visible() != until: delta = now() - start; if
    delta.total_seconds() >= timeout: raise TimeoutException(msg);
    time.sleep(1)].  [k] counts the calls of [is_visible] made so far; the
    count at the end is returned with the result. *)
Fixpoint wait_loop (until : bool) (timeout_msg : string) (env : Environment)
         (start_time : Q) (timeout : Z) (fuel k : nat) (self : VisualElement)
  : option (wait_result * nat * VisualElement) :=
  match fuel with
  | O => None
  | S fuel' =>
      match is_visible (screen_at env k) self with
      | (Raise e, self') => Some (Raised (PyException e), S k, self')
      | (Ok visible, self') =>
          if Bool.eqb visible until then Some (Returned, S k, self')
          else
            let time_delta := (now env (S k) - start_time)%Q in
            if Qle_bool (inject_Z timeout) time_delta
            then Some (Raised (TimeoutException timeout_msg), S k, self')
            else wait_loop until timeout_msg env start_time timeout fuel' (S k) self'
      end
  end.

(** *** [VisualElement.wait_until_visible] *)
Definition wait_until_visible (env : Environment) (timeout : Z) (fuel : nat)
           (self : VisualElement) : option (wait_result * nat * VisualElement) :=
  let start_time := now env 0 in
  wait_loop true
            ("Cannot find " ++ dquote ++ name self ++ dquote ++ " in "
             ++ str timeout ++ " seconds")
            env start_time timeout fuel 0 self.

(** *** [VisualElement.wait_until_not_visible] *)
Definition wait_until_not_visible (env : Environment) (timeout : Z) (fuel : nat)
           (self : VisualElement) : option (wait_result * nat * VisualElement) :=
  let start_time := now env 0 in
  wait_loop false
            ("Still present " ++ dquote ++ name self ++ dquote ++ " in "
             ++ str timeout ++ " seconds")
            env start_time timeout fuel 0 self.

(** *** [VisualElement.wait_until_clickable] *)
Definition wait_until_clickable (env : Environment) (timeout : Z) (fuel : nat)
           (self : VisualElement) : option (wait_result * nat * VisualElement) :=
  wait_until_visible env timeout fuel self.

(** *** [VisualElement.click]:
    [self.wait_until_clickable(timeout)[self.order].click()]. *)
Definition click (env : Environment) (timeout : Z) (fuel : nat)
           (self : VisualElement) : option (click_result * VisualElement) :=
  match wait_until_clickable env timeout fuel self with
  | None => None
  | Some (Raised e, _, self') => Some (ClickRaised e, self')
  | Some (Returned, k, self') =>
      match __getitem__ (screen_at env k) (order self') self' with
      | (Ok m, self'') => Some (Tapped (x m) (y m), self'')
      | (Raise e, self'') => Some (ClickRaised (PyException e), self'')
      end
  end.

(** The scores the scale loop sees, scale after scale, up to its [break]. *)
Fixpoint evaluated (gray template : image) (h w : Z) (meth : cv_method)
         (scs : list Q) : list Q :=
  match scs with
  | [] => []
  | scale :: rest =>
      let resized := resize gray (int (inject_Z (snd (shape gray)) * scale)) in
      if (fst (shape resized) <? h) || (snd (shape resized) <? w) then []
      else
        let '(_, max_val, _, _) := minMaxLoc (matchTemplate resized template meth) in
        max_val :: evaluated gray template h w meth rest
  end.

(** The list the loop over the template files leaves, before it is ordered. *)
Definition found_matches (wd : World) (s : VisualElement) : list VisualMatch :=
  matches (snd (for_each (glob wd (path s)) (_find_matches wd)
                         (snd (reset_object s)))).

End Poller.

(** ** A small concrete OpenCV: images as lists of correlation peaks

    An image has a size and a list of peaks [(at_width, score, location)]: a
    peak shows in the score map when the image has been resized to width
    [at_width].  Covering a rectangle removes the peaks located inside it. *)
Module Toy.

Record toy_image : Type := mkImage {
  rows : Z;
  cols : Z;
  peaks : list (Z * Q * (Z * Z))
}.

Definition toy_resize (img : toy_image) (width : Z) : toy_image :=
  let r := (inject_Z width / inject_Z (cols img))%Q in
  mkImage (int (inject_Z (rows img) * r)) width (peaks img).

Definition toy_matchTemplate (img template : toy_image) (meth : cv_method)
  : list (Q * (Z * Z)) :=
  map (fun p => (snd (fst p), snd p))
      (filter (fun p => fst (fst p) =? cols img) (peaks img)).

Fixpoint toy_max (l : list (Q * (Z * Z))) (best : Q * (Z * Z)) : Q * (Z * Z) :=
  match l with
  | [] => best
  | p :: l' => toy_max l' (if fgt (fst p) (fst best) then p else best)
  end.

Definition toy_minMaxLoc (m : list (Q * (Z * Z))) : Q * Q * (Z * Z) * (Z * Z) :=
  let b := toy_max m (0%Q, (0, 0)) in
  (0%Q, fst b, (0, 0), snd b).

Definition inside (p1 p2 loc : Z * Z) : bool :=
  (fst p1 <=? fst loc) && (fst loc <=? fst p2) &&
  (snd p1 <=? snd loc) && (snd loc <=? snd p2).

Definition toy_rectangle (img : toy_image) (p1 p2 : Z * Z) : toy_image :=
  mkImage (rows img) (cols img)
          (filter (fun p => negb ((fst (fst p) =? cols img) && inside p1 p2 (snd p)))
                  (peaks img)).

#[export] Instance toy_cv : OpenCV := {|
  image := toy_image;
  scoremap := list (Q * (Z * Z));
  shape := fun img => (rows img, cols img);
  resize := toy_resize;
  matchTemplate := toy_matchTemplate;
  minMaxLoc := toy_minMaxLoc;
  rectangle := toy_rectangle
|}.

(** A 20x20 template. *)
Definition button : toy_image := mkImage 20 20 [].

(** A file system holding the regular files in [files]; every template
    file is the button; the screen always shows [screen]. *)
Definition world_of (files : list string) (expand : string -> list string)
           (screen : toy_image) : World := {|
  lexists := fun p => existsb (String.eqb p) files;
  isfile := fun p => existsb (String.eqb p) files;
  isdir := fun _ => false;
  glob_magic := expand;
  imread_gray := fun _ => button;
  screenshot_gray := fun _ => screen
|}.

(** Concrete inputs used below. *)

(** One regular file, [button.png]; wildcard patterns expand to nothing. *)
Definition one_file (screen : toy_image) : World :=
  world_of ["button.png"%string] (fun _ => []) screen.

(** Two variants of one element behind the pattern [button_*.png]. *)
Definition two_files (screen : toy_image) : World :=
  world_of ["button_dark.png"; "button_light.png"]%string
           (fun _ => ["button_dark.png"; "button_light.png"]%string) screen.

(** An empty file system. *)
Definition no_file (screen : toy_image) : World :=
  world_of [] (fun _ => []) screen.

(** A screen 1000 wide and 2000 high with [n] buttons in a column that
    correlate at full size, with falling scores 0.99, 0.98, ... *)
Fixpoint column (n : nat) : list (Z * Q * (Z * Z)) :=
  match n with
  | O => []
  | S n' => (1000, (100 - Z.of_nat n) # 100, (40, 100 * Z.of_nat n)) :: column n'
  end.

Definition screen_column (n : nat) : toy_image := mkImage 2000 1000 (column n).

(** A screen 1000 wide whose only button shows at the smallest scale,
    0.2, that is in the image resized to 200 columns, at (10, 10). *)
Definition screen_small : toy_image :=
  mkImage 2000 1000 [(200, 9 # 10, (10, 10))].

Definition blank_screen : toy_image := mkImage 2000 1000 [].

(** The element for [button.png] with threshold 0.7. *)
Definition button_element (order disposal : Z) : VisualElement :=
  new_element "button.png" order disposal (7 # 10) CV_CCOEFF "button".

(** The element after a search has found two buttons. *)
Definition found_two : VisualElement :=
  mkElement {| screenshots := 1 |} "button.png" 5 SIMILARITY_ORDER "button"
            (7 # 10) CV_CCOEFF 16 false true
            [mkMatch 50 110 20 20 (99 # 100); mkMatch 50 210 20 20 (98 # 100)].

(** An environment whose clock reads [k] seconds at its [k]-th reading and
    whose screen shows [before] up to the poll [n] and [after] from then
    on. *)
Definition env_switch (n : nat) (before after : toy_image) : Environment := {|
  screen_at := fun k => one_file (if (k <? n)%nat then before else after);
  now := fun k => inject_Z (Z.of_nat k)
|}.

(** The element of order [o] after one search of a screen with two buttons,
    of a blank screen after [k] screenshots in all. *)
Definition two_buttons (o : Z) : VisualElement :=
  mkElement {| screenshots := 1 |} "button.png" o SIMILARITY_ORDER "button"
            (7 # 10) CV_CCOEFF 16 false true
            [mkMatch 50 110 20 20 (99 # 100); mkMatch 50 210 20 20 (98 # 100)].

Definition no_button (o : Z) (k : nat) : VisualElement :=
  mkElement {| screenshots := k |} "button.png" o SIMILARITY_ORDER "button"
            (7 # 10) CV_CCOEFF 16 false true [].

End Toy.

(** ** Vocabulary of the statements *)

(** The configuration of an element: what a search reads and never writes. *)
Definition same_config (s s' : VisualElement) : Prop :=
  path s' = path s /\ order s' = order s /\ disposal s' = disposal s /\
  name s' = name s /\ similarity s' = similarity s /\ method s' = method s /\
  max_occurrences s' = max_occurrences s /\ _debug s' = _debug s.

(** The match list after the ordering step of [_search_all_matches]. *)
Definition disposed (d : Z) (ms : list VisualMatch) : list VisualMatch :=
  if d =? VERTICAL_ORDER then list_sort (fun a b => y a <=? y b) ms
  else if d =? HORIZONTAL_ORDER then list_sort (fun a b => x a <=? x b) ms
  else if d =? SIMILARITY_ORDER then
    list_sort (fun a b => fle (msimilarity b) (msimilarity a)) ms
  else ms.

(** The three messages of the checks that open [_find_matches]. *)
Definition msg_template (p : string) : string :=
  "Template route doesn't exist: " ++ p.
Definition msg_disposal (s : VisualElement) : string :=
  "Disposal priority not valid: " ++ str (disposal s).
Definition msg_order (s : VisualElement) : string :=
  "Order above max occurrences: " ++ str (order s) ++ " > " ++ str (max_occurrences s).

(** Two runs of one element under thresholds [t <= t']: [s] runs under
    [t], [s'] under [t'], and [s'] holds no more matches than [s]. *)
Definition stricter (t t' : Q) (s s' : VisualElement) : Prop :=
  driver s' = driver s /\ path s' = path s /\ order s' = order s /\
  disposal s' = disposal s /\ method s' = method s /\
  max_occurrences s' = max_occurrences s /\ _searched s' = _searched s /\
  similarity s = t /\ similarity s' = t' /\
  (List.length (matches s') <= List.length (matches s))%nat.

(** Two matches tie under the key that the disposal [d] sorts by. *)
Definition same_key (d : Z) (m0 m : VisualMatch) : bool :=
  if d =? VERTICAL_ORDER then y m =? y m0
  else if d =? HORIZONTAL_ORDER then x m =? x m0
  else if d =? SIMILARITY_ORDER then Qeq_bool (msimilarity m) (msimilarity m0)
  else true.

(** * Properties *)

(** ** Sorting *)

Section SortFacts.
Context {A : Type} (le_key : A -> A -> bool).
Hypothesis le_key_total : forall a b, le_key a b = true \/ le_key b a = true.

Lemma insert_sorted_HdRel (a b : A) (l : list A) :
  le_key b a = true ->
  HdRel (fun u v => le_key u v = true) b l ->
  HdRel (fun u v => le_key u v = true) b (insert_sorted le_key a l).
Proof.
  intros Hba Hl. destruct l as [|c l]; simpl.
  - now constructor.
  - inversion Hl; subst. destruct (le_key a c); now constructor.
Qed.

Lemma insert_sorted_Sorted (a : A) (l : list A) :
  Sorted (fun u v => le_key u v = true) l ->
  Sorted (fun u v => le_key u v = true) (insert_sorted le_key a l).
Proof.
  induction 1 as [|b l Hs IH Hhd]; simpl.
  - repeat constructor.
  - destruct (le_key a b) eqn:Hab.
    + constructor; [constructor; assumption | now constructor].
    + constructor; [exact IH|].
      apply insert_sorted_HdRel; [|exact Hhd].
      destruct (le_key_total a b) as [H|H]; [congruence | exact H].
Qed.

Lemma list_sort_Sorted (l : list A) :
  Sorted (fun u v => le_key u v = true) (list_sort le_key l).
Proof.
  induction l as [|a l IH]; simpl.
  - constructor.
  - now apply insert_sorted_Sorted.
Qed.
End SortFacts.

Lemma insert_sorted_Permutation {A} (le_key : A -> A -> bool) a l :
  Permutation (a :: l) (insert_sorted le_key a l).
Proof.
  induction l as [|b l IH]; simpl.
  - apply Permutation_refl.
  - destruct (le_key a b).
    + apply Permutation_refl.
    + eapply Permutation_trans; [apply perm_swap|]. now apply perm_skip.
Qed.

Lemma list_sort_Permutation {A} (le_key : A -> A -> bool) l :
  Permutation l (list_sort le_key l).
Proof.
  induction l as [|a l IH]; simpl.
  - constructor.
  - eapply Permutation_trans; [apply perm_skip, IH|].
    apply insert_sorted_Permutation.
Qed.

Lemma list_sort_length {A} (le_key : A -> A -> bool) l :
  List.length (list_sort le_key l) = List.length l.
Proof. symmetry. apply Permutation_length, list_sort_Permutation. Qed.

(** ** Comparisons on scores *)

Lemma fle_true a b : fle a b = true <-> (a <= b)%Q.
Proof. apply Qle_bool_iff. Qed.

Lemma fle_false a b : fle a b = false <-> (b < a)%Q.
Proof.
  unfold fle. split; intro H.
  - apply Qnot_le_lt. intro Hle. apply Qle_bool_iff in Hle. congruence.
  - destruct (Qle_bool a b) eqn:E; [|reflexivity].
    apply Qle_bool_iff in E. exfalso. now apply (Qlt_not_le _ _ H).
Qed.

Lemma fgt_true a b : fgt a b = true <-> (b < a)%Q.
Proof.
  unfold fgt. rewrite negb_true_iff. apply fle_false.
Qed.

Lemma fle_total a b : fle a b = true \/ fle b a = true.
Proof.
  destruct (Qlt_le_dec a b) as [H|H].
  - left. apply fle_true. now apply Qlt_le_weak.
  - right. now apply fle_true.
Qed.

(** ** Strings *)

Lemma prefix_app (a b : string) : String.prefix a (a ++ b) = true.
Proof.
  induction a as [|c a IH]; simpl.
  - now destruct b.
  - destruct (ascii_dec c c) as [_|n]; [exact IH | now elim n].
Qed.

Lemma contains_here (a b : string) : contains a (a ++ b) = true.
Proof.
  destruct a as [|c a].
  - simpl. now destruct b.
  - change (contains (String c a) (String c a ++ b)) with
      (String.prefix (String c a) (String c a ++ b) || contains (String c a) (a ++ b)).
    now rewrite prefix_app.
Qed.

Lemma contains_app_r (sub a b : string) :
  contains sub b = true -> contains sub (a ++ b) = true.
Proof.
  intro H. induction a as [|c a IH]; simpl.
  - exact H.
  - rewrite IH. apply orb_true_r.
Qed.

(** ** The search, step by step *)

Section SearchFacts.
Context `{CV : OpenCV}.

Lemma cover_loop_extends n template h w meth sim r resized max_loc ms :
  exists extra,
    cover_loop n template h w meth sim r resized max_loc ms = ms ++ extra /\
    (List.length extra <= n)%nat.
Proof.
  revert resized max_loc ms.
  induction n as [|n IH]; intros resized max_loc ms; simpl.
  - exists []. rewrite app_nil_r. split; [reflexivity | simpl; lia].
  - destruct (minMaxLoc _) as [[[mn mv] mnl] ml].
    destruct (fle mv sim).
    + exists []. rewrite app_nil_r. split; [reflexivity | simpl; lia].
    + destruct (IH (rectangle resized (fst max_loc, snd max_loc)
                              (fst max_loc + w, snd max_loc + h)) ml
                   (ms ++ [new_match ml w h r mv])) as [extra [E L]].
      exists (new_match ml w h r mv :: extra).
      rewrite E, <- app_assoc. split; [reflexivity | simpl; lia].
Qed.

(** [_find_matches] in one piece. *)
Lemma _find_matches_unfold (wd : World) p s :
  _find_matches wd p s =
  if negb (isfile wd p) then (Raise (Exception (msg_template p)), s)
  else if negb (in_range (disposal s) 2) then (Raise (Exception (msg_disposal s)), s)
  else if negb (in_range (order s) (max_occurrences s))
       then (Raise (Exception (msg_order s)), s)
  else
    let template := imread_gray wd p in
    let s1 := set_driver s {| screenshots := S (screenshots (driver s)) |} in
    match scale_loop (screenshot_gray wd (screenshots (driver s))) template
                     (fst (shape template)) (snd (shape template))
                     (method s) (similarity s) scales None with
    | None => (Ok tt, s1)
    | Some (max_val, max_loc, r, resized) =>
        (Ok tt,
         set_matches s1
           (cover_loop (Z.to_nat (max_occurrences s)) template
                       (fst (shape template)) (snd (shape template))
                       (method s) (similarity s) r resized max_loc
                       (matches s ++ [new_match max_loc (snd (shape template))
                                                (fst (shape template)) r max_val])))
    end.
Proof.
  unfold _find_matches, bind, get, raise, put, ret.
  destruct (isfile wd p); cbn [negb]; [|reflexivity].
  destruct (in_range (disposal s) 2); cbn [negb]; [|reflexivity].
  destruct (in_range (order s) (max_occurrences s)); cbn [negb]; [|reflexivity].
  destruct (shape (imread_gray wd p)) as [h w]; cbn [fst snd].
  destruct (scale_loop _ _ _ _ _ _ _ _) as [[[[mv ml] r] rs]|]; reflexivity.
Qed.

(** [_find_matches] keeps the configuration and the flag, and adds at most
    [max_occurrences + 1] matches at the end of the list. *)
Lemma _find_matches_frame (wd : World) p s :
  same_config s (snd (_find_matches wd p s)) /\
  _searched (snd (_find_matches wd p s)) = _searched s /\
  exists extra,
    matches (snd (_find_matches wd p s)) = matches s ++ extra /\
    (List.length extra <= S (Z.to_nat (max_occurrences s)))%nat.
Proof.
  rewrite _find_matches_unfold.
  assert (Hsame : same_config s s) by (repeat split).
  assert (Hnil : exists extra, matches s = matches s ++ extra /\
                   (List.length extra <= S (Z.to_nat (max_occurrences s)))%nat).
  { exists []. rewrite app_nil_r. split; [reflexivity | simpl; lia]. }
  destruct (negb (isfile wd p)); [now simpl|].
  destruct (negb (in_range (disposal s) 2)); [now simpl|].
  destruct (negb (in_range (order s) (max_occurrences s))); [now simpl|].
  cbv zeta.
  destruct (scale_loop _ _ _ _ _ _ _ _) as [[[[mv ml] r] rs]|]; simpl.
  - split; [repeat split|]. split; [reflexivity|].
    match goal with
    | |- context [cover_loop ?n ?t ?h ?w ?m ?sim ?r ?img ?loc ?ms] =>
        destruct (cover_loop_extends n t h w m sim r img loc ms) as [extra [E L]]
    end.
    rewrite E, <- app_assoc. eexists. split; [reflexivity|]. simpl. lia.
  - split; [repeat split|]. split; [reflexivity | exact Hnil].
Qed.

(** The loop over the template files. *)
Lemma for_each_find_matches_frame (wd : World) l s :
  same_config s (snd (for_each l (_find_matches wd) s)) /\
  _searched (snd (for_each l (_find_matches wd) s)) = _searched s /\
  exists extra,
    matches (snd (for_each l (_find_matches wd) s)) = matches s ++ extra /\
    (List.length extra <= List.length l * S (Z.to_nat (max_occurrences s)))%nat.
Proof.
  revert s. induction l as [|p l IH]; intro s.
  - simpl. split; [repeat split|]. split; [reflexivity|].
    exists []. rewrite app_nil_r. split; [reflexivity | simpl; lia].
  - simpl. unfold bind.
    destruct (_find_matches_frame wd p s) as [Hc [Hs [e1 [E1 L1]]]].
    destruct (_find_matches wd p s) as [[[]|e] s1]; simpl in *.
    + destruct (IH s1) as [Hc' [Hs' [e2 [E2 L2]]]].
      unfold same_config in *.
      split; [intuition congruence|]. split; [congruence|].
      exists (e1 ++ e2). rewrite E2, E1, <- app_assoc. split; [reflexivity|].
      rewrite length_app.
      replace (max_occurrences s1) with (max_occurrences s) in L2 by intuition congruence.
      lia.
    + split; [exact Hc|]. split; [exact Hs|].
      exists e1. split; [exact E1 | lia].
Qed.

(** [_search_all_matches] in one piece. *)
Lemma _search_all_matches_unfold (wd : World) s :
  _search_all_matches wd s =
  match for_each (glob wd (path s)) (_find_matches wd)
                 (set_matches (set_searched s false) []) with
  | (Ok _, s1) =>
      (Ok tt, set_searched (set_matches s1 (disposed (disposal s1) (matches s1))) true)
  | (Raise e, s1) => (Raise e, s1)
  end.
Proof.
  unfold _search_all_matches, reset_object, bind, get, put. simpl.
  destruct (for_each _ _ _) as [[[]|e] s1]; [|reflexivity].
  unfold disposed.
  destruct (disposal s1 =? VERTICAL_ORDER); [reflexivity|].
  destruct (disposal s1 =? HORIZONTAL_ORDER); [reflexivity|].
  destruct (disposal s1 =? SIMILARITY_ORDER); [reflexivity|].
  unfold ret. now destruct s1.
Qed.

(** A search only reads the configuration. *)
Lemma _search_all_matches_frame (wd : World) s :
  same_config s (snd (_search_all_matches wd s)).
Proof.
  rewrite _search_all_matches_unfold.
  destruct (for_each_find_matches_frame wd (glob wd (path s))
              (set_matches (set_searched s false) [])) as [Hc _].
  destruct (for_each _ _ _) as [[[]|e] s1]; exact Hc.
Qed.

(** A search that returns has set the flag. *)
Lemma _search_all_matches_ok (wd : World) s u s' :
  _search_all_matches wd s = (Ok u, s') -> _searched s' = true.
Proof.
  rewrite _search_all_matches_unfold.
  destruct (for_each _ _ _) as [[[]|e] s1]; intro H; inversion H; reflexivity.
Qed.

(** A search starts from the configuration alone: the cached list and the
    flag it finds are dropped first. *)
Lemma _search_all_matches_reset (wd : World) s :
  _search_all_matches wd s = _search_all_matches wd (snd (reset_object s)).
Proof.
  rewrite !_search_all_matches_unfold. reflexivity.
Qed.

Lemma cached_or_search_unfold (wd : World) s :
  cached_or_search wd s =
  if _searched s then (Ok (matches s), s)
  else match _search_all_matches wd s with
       | (Ok _, s') => (Ok (matches s'), s')
       | (Raise e, s') => (Raise e, s')
       end.
Proof.
  unfold cached_or_search, bind, get, ret.
  destruct (_searched s); [reflexivity|].
  destruct (_search_all_matches wd s) as [[[]|e] s']; reflexivity.
Qed.

(** What a query that returns has in hand is the list of the object, and
    the object is then marked as searched. *)
Lemma cached_or_search_ok (wd : World) s ms s' :
  cached_or_search wd s = (Ok ms, s') ->
  ms = matches s' /\ _searched s' = true /\ same_config s s'.
Proof.
  rewrite cached_or_search_unfold.
  destruct (_searched s) eqn:Hs.
  - intro H; inversion H; subst. repeat split; assumption.
  - pose proof (_search_all_matches_frame wd s) as Hc.
    destruct (_search_all_matches wd s) as [[u|e] s1] eqn:E; intro H;
      inversion H; subst.
    split; [reflexivity|]. split; [|exact Hc].
    exact (_search_all_matches_ok wd s u s' E).
Qed.

End SearchFacts.

(** ** The cache *)

(** C8. Once the searched flag is set, [__len__], [__getitem__] and
    [__iter__] answer from the cached list: the answer is the same in every
    world, the object (its list, its flag, the count of screenshots taken) is
    left as it was, so a second query gives the same answer as the first;
    [reset_object] clears the flag and the list, and the next query is then a
    search. *)
Theorem cached_queries_reuse_matches `{CV : OpenCV} (wd : World) (s : VisualElement) :
  _searched s = true ->
  __len__ wd s = (Ok (Z.of_nat (List.length (matches s))), s) /\
  __iter__ wd s = (Ok (matches s), s) /\
  (forall i,
      __getitem__ wd i s =
      (match py_index (matches s) i with
       | Some m => Ok m
       | None => Raise (Exception ("Index above matches: " ++ str (order s) ++ " > "
                                   ++ str (Z.of_nat (List.length (matches s)))))
       end, s)) /\
  (forall wd' : World,
      __len__ wd' (snd (__len__ wd s)) = __len__ wd s /\
      __iter__ wd' (snd (__iter__ wd s)) = __iter__ wd s /\
      forall i, __getitem__ wd' i (snd (__getitem__ wd i s)) = __getitem__ wd i s) /\
  _searched (snd (reset_object s)) = false /\
  matches (snd (reset_object s)) = [] /\
  __iter__ wd (snd (reset_object s)) =
  (match fst (_search_all_matches wd s) with
   | Ok _ => Ok (matches (snd (_search_all_matches wd s)))
   | Raise e => Raise e
   end, snd (_search_all_matches wd s)).
Proof.
  intro Hs.
  assert (Hc : forall wd0 : World, cached_or_search wd0 s = (Ok (matches s), s)).
  { intro wd0. rewrite cached_or_search_unfold, Hs. reflexivity. }
  assert (Hlen : forall wd0 : World,
             __len__ wd0 s = (Ok (Z.of_nat (List.length (matches s))), s)).
  { intro wd0. unfold __len__, bind. rewrite Hc. reflexivity. }
  assert (Hget : forall (wd0 : World) i,
             __getitem__ wd0 i s =
             (match py_index (matches s) i with
              | Some m => Ok m
              | None => Raise (Exception ("Index above matches: " ++ str (order s) ++ " > "
                                          ++ str (Z.of_nat (List.length (matches s)))))
              end, s)).
  { intros wd0 i. unfold __getitem__, bind. rewrite Hc.
    destruct (py_index (matches s) i); reflexivity. }
  split; [apply Hlen|]. split; [apply Hc|]. split; [apply Hget|].
  split.
  - intro wd'. rewrite (Hlen wd). unfold __iter__. rewrite (Hc wd). cbn [snd].
    split; [apply Hlen|]. split; [apply Hc|].
    intro i. rewrite (Hget wd i). cbn [snd]. apply Hget.
  - split; [reflexivity|]. split; [reflexivity|].
    unfold __iter__. rewrite cached_or_search_unfold.
    change (_searched (snd (reset_object s))) with false. cbv iota.
    rewrite <- _search_all_matches_reset.
    destruct (_search_all_matches wd s) as [[[]|e] s1]; reflexivity.
Qed.

(** C10. [is_visible] is a search followed by a test of the list it leaves:
    the cached list and the flag it finds are cleared first, so its answer and
    the object it leaves are the same whatever the cache held. *)
Theorem is_visible_searches_afresh `{CV : OpenCV} (wd : World) (s : VisualElement) :
  is_visible wd s =
  (match fst (_search_all_matches wd (snd (reset_object s))) with
   | Ok _ => Ok (match matches (snd (_search_all_matches wd (snd (reset_object s)))) with
                 | [] => false
                 | _ :: _ => true
                 end)
   | Raise e => Raise e
   end, snd (_search_all_matches wd (snd (reset_object s)))) /\
  forall (ms : list VisualMatch) (b : bool),
    is_visible wd (set_searched (set_matches s ms) b) = is_visible wd s.
Proof.
  split.
  - unfold is_visible, bind, get, ret.
    rewrite <- _search_all_matches_reset.
    destruct (_search_all_matches wd s) as [[[]|e] s1]; reflexivity.
  - intros ms b. unfold is_visible, bind.
    rewrite (_search_all_matches_reset wd (set_searched (set_matches s ms) b)).
    rewrite (_search_all_matches_reset wd s).
    reflexivity.
Qed.

(** ** Validation of the configuration *)

Lemma in_range_weaken n : in_range n 2 = true -> in_range n 3 = true.
Proof.
  unfold in_range. rewrite !andb_true_iff, !Z.leb_le, !Z.ltb_lt. lia.
Qed.

(** The checks that open [_find_matches], met on the first template path. *)
Lemma search_first_template `{CV : OpenCV}
      (wd : World) (s : VisualElement) (p : string) (ps : list string) :
  glob wd (path s) = p :: ps ->
  (isfile wd p = false ->
   _search_all_matches wd s =
   (Raise (Exception (msg_template p)), set_matches (set_searched s false) [])) /\
  (isfile wd p = true -> in_range (disposal s) 2 = false ->
   _search_all_matches wd s =
   (Raise (Exception (msg_disposal s)), set_matches (set_searched s false) [])) /\
  (isfile wd p = true -> in_range (disposal s) 2 = true ->
   in_range (order s) (max_occurrences s) = false ->
   _search_all_matches wd s =
   (Raise (Exception (msg_order s)), set_matches (set_searched s false) [])).
Proof.
  intro Hglob.
  rewrite _search_all_matches_unfold, Hglob.
  cbn [for_each]. unfold bind.
  rewrite _find_matches_unfold.
  change (disposal (set_matches (set_searched s false) [])) with (disposal s).
  change (order (set_matches (set_searched s false) [])) with (order s).
  change (max_occurrences (set_matches (set_searched s false) []))
    with (max_occurrences s).
  change (msg_disposal (set_matches (set_searched s false) [])) with (msg_disposal s).
  change (msg_order (set_matches (set_searched s false) [])) with (msg_order s).
  split; [|split].
  - intros ->. reflexivity.
  - intros -> ->. reflexivity.
  - intros -> -> ->. reflexivity.
Qed.

(** C4, as amended. When the pattern resolves to at least one path, the
    search fails on the first of them if the disposal is none of the three
    policies or the order is outside [range(max_occurrences)]: with the
    disposal message, or with the order message when the disposal passed its
    check (or with the missing-template message when that path is no regular
    file).  No screenshot has been taken and no match recorded by then, so the
    failure does not depend on what the screen shows. *)
Theorem first_template_validates_config `{CV : OpenCV}
        (wd : World) (s : VisualElement) (p : string) (ps : list string) :
  glob wd (path s) = p :: ps ->
  in_range (disposal s) 3 = false \/ in_range (order s) (max_occurrences s) = false ->
  exists msg,
    fst (_search_all_matches wd s) = Raise (Exception msg) /\
    (isfile wd p = false -> msg = msg_template p) /\
    (isfile wd p = true -> in_range (disposal s) 3 = false -> msg = msg_disposal s) /\
    (isfile wd p = true -> in_range (disposal s) 2 = true -> msg = msg_order s) /\
    matches (snd (_search_all_matches wd s)) = [] /\
    _searched (snd (_search_all_matches wd s)) = false /\
    driver (snd (_search_all_matches wd s)) = driver s.
Proof.
  intros Hglob Hbad.
  destruct (search_first_template wd s p ps Hglob) as [Ht [Hd Ho]].
  destruct (isfile wd p) eqn:Hf.
  - destruct (in_range (disposal s) 2) eqn:H2.
    + pose proof (in_range_weaken _ H2) as H3.
      destruct (in_range (order s) (max_occurrences s)) eqn:Hr.
      * exfalso. destruct Hbad; congruence.
      * rewrite (Ho eq_refl eq_refl eq_refl). exists (msg_order s). cbn [fst snd].
        repeat split; try reflexivity; congruence.
    + rewrite (Hd eq_refl eq_refl). exists (msg_disposal s). cbn [fst snd].
      repeat split; try reflexivity; congruence.
  - rewrite (Ht eq_refl). exists (msg_template p). cbn [fst snd].
    repeat split; try reflexivity; congruence.
Qed.

(** ** Access by index *)

Lemma prefix_refl (a : string) : String.prefix a a = true.
Proof.
  induction a as [|c a IH]; simpl; [reflexivity|].
  destruct (ascii_dec c c) as [_|n]; [exact IH | now elim n].
Qed.

Lemma contains_refl (a : string) : contains a a = true.
Proof.
  destruct a as [|c a]; [reflexivity|].
  change (contains (String c a) (String c a)) with
    (String.prefix (String c a) (String c a) || contains (String c a) a).
  now rewrite prefix_refl.
Qed.

Lemma py_index_above {A} (l : list A) (i : Z) :
  Z.of_nat (List.length l) <= i -> py_index l i = None.
Proof.
  intro H. unfold py_index.
  destruct (0 <=? i) eqn:E1; destruct (i <? Z.of_nat (List.length l)) eqn:E2;
    cbn [andb]; try (apply Z.ltb_lt in E2; lia).
  - destruct (i <? 0) eqn:E3; [apply Z.ltb_lt in E3; apply Z.leb_le in E1; lia|].
    now rewrite andb_false_r.
  - apply Z.leb_gt in E1. lia.
Qed.

(** C9, as amended. An access at an index [i] at or above the number of
    matches found fails, after the search if one was due, with an exception
    whose message opens with [Index above matches: ] and holds the number of
    matches found.  When [i] is the configured [order], the index [click]
    asks for, the message is [Index above matches: <i> > <count>]: the index
    asked for and the number found, and nothing of the name of the
    element. *)
Theorem getitem_above_matches `{CV : OpenCV}
        (wd : World) (s s' : VisualElement) (ms : list VisualMatch) (i : Z) :
  cached_or_search wd s = (Ok ms, s') ->
  Z.of_nat (List.length ms) <= i ->
  exists msg,
    __getitem__ wd i s = (Raise (Exception msg), s') /\
    String.prefix "Index above matches: " msg = true /\
    contains (str (Z.of_nat (List.length ms))) msg = true /\
    (i = order s -> contains (str i) msg = true) /\
    (i = order s ->
     msg = ("Index above matches: " ++ str i ++ " > "
            ++ str (Z.of_nat (List.length ms)))%string).
Proof.
  intros Hq Hi.
  destruct (cached_or_search_ok wd s ms s' Hq) as [Hms [_ Hc]].
  assert (Ho : order s' = order s) by apply Hc.
  exists ("Index above matches: " ++ str (order s') ++ " > "
          ++ str (Z.of_nat (List.length (matches s'))))%string.
  split; [|split; [|split; [|split]]].
  - unfold __getitem__, bind. rewrite Hq.
    rewrite (py_index_above ms i Hi). reflexivity.
  - apply prefix_app.
  - subst ms. do 3 apply contains_app_r. apply contains_refl.
  - intro Hio. subst i. rewrite Ho.
    apply contains_app_r. apply contains_here.
  - intro Hio. subst i ms. rewrite Ho. reflexivity.
Qed.

(** ** Ordering *)

Lemma Sorted_weaken {A} (R R' : A -> A -> Prop) (l : list A) :
  (forall a b, R a b -> R' a b) -> Sorted R l -> Sorted R' l.
Proof.
  intros HR. induction 1 as [|a l Hs IH Hhd]; constructor; [exact IH|].
  destruct Hhd; constructor. now apply HR.
Qed.

Lemma disposed_length d ms : List.length (disposed d ms) = List.length ms.
Proof.
  unfold disposed.
  destruct (d =? VERTICAL_ORDER); [apply list_sort_length|].
  destruct (d =? HORIZONTAL_ORDER); [apply list_sort_length|].
  destruct (d =? SIMILARITY_ORDER); [apply list_sort_length | reflexivity].
Qed.

Lemma leb_total a b : (a <=? b) = true \/ (b <=? a) = true.
Proof. rewrite !Z.leb_le. lia. Qed.

(** C6. In the list a completed search leaves, every adjacent pair is in
    order: similarity not increasing under [SIMILARITY_ORDER], [y] not
    decreasing under [VERTICAL_ORDER], [x] not decreasing under
    [HORIZONTAL_ORDER]. *)
Theorem completed_search_is_ordered `{CV : OpenCV}
        (wd : World) (s s' : VisualElement) (u : unit) :
  _search_all_matches wd s = (Ok u, s') ->
  (disposal s = SIMILARITY_ORDER ->
   Sorted (fun a b => (msimilarity b <= msimilarity a)%Q) (matches s')) /\
  (disposal s = VERTICAL_ORDER -> Sorted (fun a b => y a <= y b) (matches s')) /\
  (disposal s = HORIZONTAL_ORDER -> Sorted (fun a b => x a <= x b) (matches s')).
Proof.
  rewrite _search_all_matches_unfold.
  destruct (for_each_find_matches_frame wd (glob wd (path s))
              (set_matches (set_searched s false) [])) as [Hc _].
  destruct (for_each _ _ _) as [[[]|e] s1]; intro H; inversion H; subst; clear H.
  cbn [snd] in Hc. cbn [matches set_searched set_matches].
  assert (Hd : disposal s1 = disposal s) by apply Hc.
  rewrite Hd. split; [|split]; intros ->; unfold disposed; cbn [Z.eqb].
  - eapply Sorted_weaken; [|apply list_sort_Sorted].
    + intros a b Hab. now apply fle_true.
    + intros a b. apply fle_total.
  - eapply Sorted_weaken; [|apply list_sort_Sorted].
    + intros a b Hab. now apply Z.leb_le.
    + intros a b. apply leb_total.
  - eapply Sorted_weaken; [|apply list_sort_Sorted].
    + intros a b Hab. now apply Z.leb_le.
    + intros a b. apply leb_total.
Qed.

(** ** The number of matches *)

(** What the loops allow at most: for each resolved path the one match of
    the scale loop and one match for each round of the covering loop. *)
Lemma matches_bounded_per_template `{CV : OpenCV} (wd : World) (s : VisualElement) :
  (List.length (matches (snd (_search_all_matches wd s)))
   <= List.length (glob wd (path s)) * S (Z.to_nat (max_occurrences s)))%nat.
Proof.
  rewrite _search_all_matches_unfold.
  destruct (for_each_find_matches_frame wd (glob wd (path s))
              (set_matches (set_searched s false) [])) as [_ [_ [extra [E L]]]].
  destruct (for_each _ _ _) as [[[]|e] s1]; cbn [snd] in *;
    cbn [matches set_searched set_matches] in *.
  - rewrite disposed_length, E. exact L.
  - rewrite E. exact L.
Qed.

(** C2, as amended. The cap is per resolved template file, not per search:
    there is a bound for one file, fixed by [max_occurrences] alone (the same
    for every screen, every template, every threshold), and a search over [n]
    resolved paths leaves at most [n] times that many matches, whether it
    returns or fails on the way. *)
Theorem matches_bounded_per_file :
  exists cap : Z -> nat,
    forall (CV : OpenCV) (wd : World) (s : VisualElement),
      (List.length (matches (snd (_search_all_matches wd s)))
       <= List.length (glob wd (path s)) * cap (max_occurrences s))%nat.
Proof.
  exists (fun m => S (Z.to_nat m)). intros CV wd s.
  rewrite _search_all_matches_unfold.
  destruct (for_each_find_matches_frame wd (glob wd (path s))
              (set_matches (set_searched s false) [])) as [_ [_ [extra [E L]]]].
  destruct (for_each _ _ _) as [[[]|e] s1]; cbn [snd] in *;
    cbn [matches set_searched set_matches] in *.
  - rewrite disposed_length, E. exact L.
  - rewrite E. exact L.
Qed.

(** ** The threshold *)

Section Threshold.
Context `{CV : OpenCV}.
Variables t t' : Q.
Hypothesis t_le_t' : (t <= t')%Q.

Lemma fle_threshold v : fle v t = true -> fle v t' = true.
Proof.
  rewrite !fle_true. intro H. now apply Qle_trans with t.
Qed.

(** The scale loop under [t'] ends empty-handed or with the very tuple the
    loop under [t] ends with. *)
Lemma scale_loop_threshold gray template h w meth scs occ occ' :
  occ_inv t' occ occ' ->
  occ_inv t' (scale_loop gray template h w meth t scs occ)
             (scale_loop gray template h w meth t' scs occ').
Proof.
  revert occ occ'. induction scs as [|scale rest IH]; intros occ occ' Hinv.
  - exact Hinv.
  - cbn [scale_loop].
    destruct (_ || _); [exact Hinv|].
    destruct (minMaxLoc _) as [[[mn mv] mnl] ml].
    destruct (fle mv t) eqn:Ht.
    + rewrite (fle_threshold mv Ht). now apply IH.
    + apply fle_false in Ht.
      destruct (fle mv t') eqn:Ht'.
      * apply fle_true in Ht'.
        destruct occ as [[[[bv bl] br] bi]|].
        -- destruct (fgt mv bv) eqn:Hg; apply IH.
           ++ apply fgt_true in Hg.
              destruct occ' as [[[[v' l'] r'] i']|]; cbn in *.
              ** destruct Hinv as [E Hv]. inversion E; subst.
                 exfalso. apply (Qlt_irrefl mv).
                 apply Qle_lt_trans with t'; [exact Ht'|].
                 now apply Qlt_trans with v'.
              ** exact Ht'.
           ++ exact Hinv.
        -- apply IH. destruct occ' as [[[[v' l'] r'] i']|]; cbn in *.
           ++ destruct Hinv as [E _]. discriminate E.
           ++ exact Ht'.
      * apply fle_false in Ht'.
        destruct occ' as [[[[v' l'] r'] i']|]; cbn in Hinv.
        -- destruct Hinv as [E Hv]. subst occ.
           destruct (fgt mv v'); apply IH; cbn; split; auto.
        -- destruct occ as [[[[bv bl] br] bi]|].
           ++ assert (Hg : fgt mv bv = true).
              { apply fgt_true. now apply Qle_lt_trans with t'. }
              rewrite Hg. apply IH. cbn. split; auto.
           ++ apply IH. cbn. split; auto.
Qed.

(** The covering loop under [t'] stops no later than the one under [t]. *)
Lemma cover_loop_threshold n template h w meth r resized max_loc ms ms' :
  (List.length ms' <= List.length ms)%nat ->
  (List.length (cover_loop n template h w meth t' r resized max_loc ms')
   <= List.length (cover_loop n template h w meth t r resized max_loc ms))%nat.
Proof.
  revert resized max_loc ms ms'.
  induction n as [|n IH]; intros resized max_loc ms ms' Hlen.
  - exact Hlen.
  - destruct (cover_loop_extends (S n) template h w meth t r resized max_loc ms)
      as [extra [E _]].
    cbn [cover_loop] in *.
    destruct (minMaxLoc _) as [[[mn mv] mnl] ml].
    destruct (fle mv t') eqn:Ht'.
    + rewrite E, length_app. lia.
    + destruct (fle mv t) eqn:Ht.
      * rewrite (fle_threshold mv Ht) in Ht'. discriminate.
      * apply IH. rewrite !length_app. cbn. lia.
Qed.

(** One template, two thresholds: the same outcome and no more matches
    under the higher one. *)
Lemma _find_matches_threshold (wd : World) p s s' :
  stricter t t' s s' ->
  fst (_find_matches wd p s') = fst (_find_matches wd p s) /\
  stricter t t' (snd (_find_matches wd p s)) (snd (_find_matches wd p s')).
Proof.
  intros (Hdr & Hpa & Hor & Hdi & Hme & Hmx & Hse & Ht & Ht' & Hlen).
  rewrite !_find_matches_unfold.
  unfold msg_disposal, msg_order.
  rewrite Hdi, Hor, Hmx, Hdr, Hme, Ht, Ht'.
  assert (Hst : stricter t t' s s') by (unfold stricter; tauto).
  destruct (negb (isfile wd p)); [split; [reflexivity | exact Hst]|].
  destruct (negb (in_range (disposal s) 2)); [split; [reflexivity | exact Hst]|].
  destruct (negb (in_range (order s) (max_occurrences s)));
    [split; [reflexivity | exact Hst]|].
  cbv zeta.
  pose proof (scale_loop_threshold
                (screenshot_gray wd (screenshots (driver s))) (imread_gray wd p)
                (fst (shape (imread_gray wd p))) (snd (shape (imread_gray wd p)))
                (method s) scales None None I) as Hinv.
  destruct (scale_loop _ _ _ _ _ t' _ _) as [[[[v' l'] r'] i']|].
  - cbn in Hinv. destruct Hinv as [E _]. rewrite E.
    split; [reflexivity|].
    unfold stricter. cbn [fst snd driver path order disposal method max_occurrences
                          _searched similarity matches set_matches set_driver].
    repeat split; try assumption; try congruence.
    apply cover_loop_threshold. rewrite !length_app. cbn. lia.
  - destruct (scale_loop _ _ _ _ _ t _ _) as [[[[v l] r] i]|].
    + split; [reflexivity|].
      unfold stricter. cbn [fst snd driver path order disposal method max_occurrences
                            _searched similarity matches set_matches set_driver].
      repeat split; try assumption; try congruence.
      match goal with
      | |- context [cover_loop ?n ?tp ?hh ?ww ?m ?sim ?rr ?img ?loc ?l0] =>
          destruct (cover_loop_extends n tp hh ww m sim rr img loc l0) as [extra [E _]]
      end.
      rewrite E, !length_app. lia.
    + split; [reflexivity|].
      unfold stricter. cbn [fst snd driver path order disposal method max_occurrences
                            _searched similarity matches set_matches set_driver].
      repeat split; try assumption; congruence.
Qed.

Lemma for_each_threshold (wd : World) l s s' :
  stricter t t' s s' ->
  fst (for_each l (_find_matches wd) s') = fst (for_each l (_find_matches wd) s) /\
  stricter t t' (snd (for_each l (_find_matches wd) s))
                (snd (for_each l (_find_matches wd) s')).
Proof.
  revert s s'. induction l as [|p l IH]; intros s s' Hst.
  - split; [reflexivity | exact Hst].
  - cbn [for_each]. unfold bind.
    destruct (_find_matches_threshold wd p s s' Hst) as [Ho Hst1].
    destruct (_find_matches wd p s) as [o1 s1].
    destruct (_find_matches wd p s') as [o1' s1'].
    cbn [fst snd] in *. subst o1'.
    destruct o1 as [[]|e].
    + now apply IH.
    + split; [reflexivity | exact Hst1].
Qed.

End Threshold.

(** C7. For one world (screen, templates, files) and one element, a search
    under a threshold [t'] at or above [t] has the outcome of the search under
    [t] (both return, or both fail alike) and leaves no more matches. *)
Theorem raising_threshold_never_adds_matches `{CV : OpenCV}
        (wd : World) (s : VisualElement) (t t' : Q) :
  (t <= t')%Q ->
  fst (_search_all_matches wd (set_similarity s t'))
  = fst (_search_all_matches wd (set_similarity s t)) /\
  (List.length (matches (snd (_search_all_matches wd (set_similarity s t'))))
   <= List.length (matches (snd (_search_all_matches wd (set_similarity s t)))))%nat.
Proof.
  intro Hle.
  rewrite !_search_all_matches_unfold.
  change (path (set_similarity s t')) with (path s).
  change (path (set_similarity s t)) with (path s).
  assert (Hst : stricter t t'
                  (set_matches (set_searched (set_similarity s t) false) [])
                  (set_matches (set_searched (set_similarity s t') false) [])).
  { unfold stricter. cbn. repeat split; lia. }
  destruct (for_each_threshold t t' Hle wd (glob wd (path s)) _ _ Hst) as [Ho Hst1].
  destruct (for_each _ _ (set_matches (set_searched (set_similarity s t) false) []))
    as [o1 s1].
  destruct (for_each _ _ (set_matches (set_searched (set_similarity s t') false) []))
    as [o1' s1'].
  cbn [fst snd] in *. subst o1'.
  destruct Hst1 as (_ & _ & _ & _ & _ & _ & _ & _ & _ & Hlen).
  destruct o1 as [[]|e]; cbn [fst snd matches set_searched set_matches].
  - split; [reflexivity|]. rewrite !disposed_length. exact Hlen.
  - split; [reflexivity | exact Hlen].
Qed.

(** ** The search on concrete screens *)

Import Toy.

(** A pattern that resolves to nothing: no check is made, no screenshot is
    taken, and the search returns with an empty list. *)
Lemma empty_glob_search `{CV : OpenCV} (wd : World) (s : VisualElement) :
  glob wd (path s) = [] ->
  _search_all_matches wd s = (Ok tt, set_searched (set_matches s []) true).
Proof.
  intro Hglob. rewrite _search_all_matches_unfold, Hglob.
  cbn [for_each]. unfold ret, disposed.
  cbn [matches disposal set_matches set_searched list_sort].
  destruct (disposal s =? VERTICAL_ORDER); [reflexivity|].
  destruct (disposal s =? HORIZONTAL_ORDER); [reflexivity|].
  destruct (disposal s =? SIMILARITY_ORDER); reflexivity.
Qed.

(** A pattern without wildcard that names no file-system entry resolves to
    nothing: [glob.glob] has already dropped the path that
    [os.path.isfile] would have refused. *)
Lemma glob_of_missing_file `{CV : OpenCV} (wd : World) (pathname : string) :
  has_magic pathname = false -> lexists wd pathname = false ->
  isdir wd pathname = false ->
  glob wd pathname = [].
Proof.
  intros Hm Hl Hd. unfold glob. rewrite Hm, Hl, Hd.
  now destruct (basename_empty pathname).
Qed.

Example search_finds_two :
  _search_all_matches (one_file (screen_column 2)) (button_element 5 SIMILARITY_ORDER)
  = (Ok tt, found_two).
Proof. vm_compute. reflexivity. Qed.

(** With two buttons cached and a screen that has gone blank, [is_visible]
    answers from the screen. *)
Example is_visible_ignores_cache :
  fst (is_visible (one_file blank_screen) found_two) = Ok false /\
  fst (__len__ (one_file blank_screen) found_two) = Ok 2.
Proof. split; vm_compute; reflexivity. Qed.

(** C1. [SIMILARITY_ORDER] and [VERTICAL_ORDER] pass the check of
    [_find_matches] and the search returns; [HORIZONTAL_ORDER], the third
    policy, is refused by [range(2)] as soon as one template file is
    looked at. *)
Theorem horizontal_order_is_rejected :
  fst (_search_all_matches (one_file (screen_column 3)) (button_element 0 SIMILARITY_ORDER))
  = Ok tt /\
  fst (_search_all_matches (one_file (screen_column 3)) (button_element 0 VERTICAL_ORDER))
  = Ok tt /\
  fst (_search_all_matches (one_file (screen_column 3)) (button_element 0 HORIZONTAL_ORDER))
  = Raise (Exception "Disposal priority not valid: 2").
Proof. repeat split; vm_compute; reflexivity. Qed.

(** C2, counterexample. Two template files that each match nine times give
    eighteen matches under [max_occurrences = 16]. *)
Lemma two_templates_exceed_max_occurrences :
  fst (_search_all_matches (two_files (screen_column 9))
         (new_element "button_*.png" 0 SIMILARITY_ORDER (7 # 10) CV_CCOEFF "button"))
  = Ok tt /\
  ~ (Z.of_nat (List.length
        (matches (snd (_search_all_matches (two_files (screen_column 9))
           (new_element "button_*.png" 0 SIMILARITY_ORDER (7 # 10) CV_CCOEFF "button")))))
     <= max_occurrences
          (snd (_search_all_matches (two_files (screen_column 9))
             (new_element "button_*.png" 0 SIMILARITY_ORDER (7 # 10) CV_CCOEFF "button")))).
Proof.
  split; [vm_compute; reflexivity|].
  intro H. vm_compute in H. apply H. reflexivity.
Qed.

(** C3. A button found at (10, 10) in the screen resized from 1000 to 200
    columns (ratio 5) has the source-pixel box (50, 50)-(150, 150), whose
    midpoint is (100, 100); the match is placed at (60, 60): the offset to
    the centre, and the width and height, are those of the template, not
    scaled by the ratio. *)
Theorem center_offset_is_not_scaled :
  scale_loop screen_small button 20 20 CV_CCOEFF (7 # 10) scales None
  = Some (9 # 10, (10, 10), 1000 # 200, mkImage 400 200 (peaks screen_small)) /\
  _get_bounds (10, 10) 20 20 (1000 # 200) = (50, 50, 150, 150) /\
  _search_all_matches (one_file screen_small) (button_element 0 SIMILARITY_ORDER)
  = (Ok tt,
     mkElement {| screenshots := 1 |} "button.png" 0 SIMILARITY_ORDER "button"
               (7 # 10) CV_CCOEFF 16 false true [mkMatch 60 60 20 20 (9 # 10)]).
Proof. repeat split; vm_compute; reflexivity. Qed.

(** C4, counterexample. A wildcard pattern that matches no file: disposal 7
    and order 99 go unnoticed and the search returns. *)
Lemma empty_glob_skips_validation :
  glob (no_file blank_screen) "*.png" = [] /\
  in_range 7 3 = false /\
  in_range 99 (max_occurrences (new_element "*.png" 99 7 (7 # 10) CV_CCOEFF "button"))
  = false /\
  _search_all_matches (no_file blank_screen)
                      (new_element "*.png" 99 7 (7 # 10) CV_CCOEFF "button")
  = (Ok tt, set_searched (new_element "*.png" 99 7 (7 # 10) CV_CCOEFF "button") true).
Proof. repeat split; vm_compute; reflexivity. Qed.

Lemma first_template_validates_config_witness :
  exists msg,
    fst (_search_all_matches (one_file blank_screen) (button_element 99 7))
    = Raise (Exception msg) /\
    (isfile (one_file blank_screen) "button.png" = false ->
     msg = msg_template "button.png") /\
    (isfile (one_file blank_screen) "button.png" = true ->
     in_range (disposal (button_element 99 7)) 3 = false ->
     msg = msg_disposal (button_element 99 7)) /\
    (isfile (one_file blank_screen) "button.png" = true ->
     in_range (disposal (button_element 99 7)) 2 = true ->
     msg = msg_order (button_element 99 7)) /\
    matches (snd (_search_all_matches (one_file blank_screen) (button_element 99 7))) = [] /\
    _searched (snd (_search_all_matches (one_file blank_screen) (button_element 99 7)))
    = false /\
    driver (snd (_search_all_matches (one_file blank_screen) (button_element 99 7)))
    = driver (button_element 99 7).
Proof.
  apply (first_template_validates_config (one_file blank_screen) (button_element 99 7)
           "button.png" []).
  - reflexivity.
  - left. reflexivity.
Defined.

(** C5. The pattern [missing.png] holds no wildcard and names no file:
    [glob.glob] yields nothing for it, the check of [os.path.isfile] is never
    reached, and the search returns with no match instead of failing. *)
Theorem missing_template_is_not_reported :
  has_magic "missing.png" = false /\
  isfile (no_file blank_screen) "missing.png" = false /\
  glob (no_file blank_screen) "missing.png" = [] /\
  _search_all_matches (no_file blank_screen)
                      (new_element "missing.png" 0 SIMILARITY_ORDER (7 # 10) CV_CCOEFF
                                   "missing")
  = (Ok tt,
     set_searched (new_element "missing.png" 0 SIMILARITY_ORDER (7 # 10) CV_CCOEFF
                               "missing") true).
Proof. repeat split; vm_compute; reflexivity. Qed.

Lemma completed_search_is_ordered_witness :
  (disposal (button_element 0 VERTICAL_ORDER) = SIMILARITY_ORDER ->
   Sorted (fun a b => (msimilarity b <= msimilarity a)%Q)
          (matches (snd (_search_all_matches (one_file (screen_column 3))
                                             (button_element 0 VERTICAL_ORDER))))) /\
  (disposal (button_element 0 VERTICAL_ORDER) = VERTICAL_ORDER ->
   Sorted (fun a b => y a <= y b)
          (matches (snd (_search_all_matches (one_file (screen_column 3))
                                             (button_element 0 VERTICAL_ORDER))))) /\
  (disposal (button_element 0 VERTICAL_ORDER) = HORIZONTAL_ORDER ->
   Sorted (fun a b => x a <= x b)
          (matches (snd (_search_all_matches (one_file (screen_column 3))
                                             (button_element 0 VERTICAL_ORDER))))).
Proof.
  apply (completed_search_is_ordered (one_file (screen_column 3))
           (button_element 0 VERTICAL_ORDER) _ tt).
  vm_compute. reflexivity.
Defined.

Lemma raising_threshold_never_adds_matches_witness :
  fst (_search_all_matches (one_file (screen_column 5))
         (set_similarity (button_element 0 SIMILARITY_ORDER) (97 # 100)))
  = fst (_search_all_matches (one_file (screen_column 5))
           (set_similarity (button_element 0 SIMILARITY_ORDER) (7 # 10))) /\
  (List.length (matches (snd (_search_all_matches (one_file (screen_column 5))
      (set_similarity (button_element 0 SIMILARITY_ORDER) (97 # 100)))))
   <= List.length (matches (snd (_search_all_matches (one_file (screen_column 5))
      (set_similarity (button_element 0 SIMILARITY_ORDER) (7 # 10))))))%nat.
Proof.
  apply (raising_threshold_never_adds_matches (one_file (screen_column 5))
           (button_element 0 SIMILARITY_ORDER) (7 # 10) (97 # 100)).
  unfold Qle. simpl. lia.
Defined.

Lemma cached_queries_reuse_matches_witness :
  _searched found_two = true /\
  __len__ (one_file blank_screen) found_two = (Ok 2, found_two) /\
  __iter__ (one_file blank_screen) found_two = (Ok (matches found_two), found_two).
Proof.
  split; [reflexivity|].
  destruct (cached_queries_reuse_matches (one_file blank_screen) found_two eq_refl)
    as [Hlen [Hiter _]].
  split; [exact Hlen | exact Hiter].
Defined.

(** C9, counterexample. With two matches found and [order = 5], the access
    at index 5, the configured order, fails with a message that holds the
    index and the count but not [button], the name of the element. *)
Lemma getitem_message_omits_name :
  __getitem__ (one_file blank_screen) 5 found_two
  = (Raise (Exception "Index above matches: 5 > 2"), found_two) /\
  Z.of_nat (List.length (matches found_two)) <= 5 /\
  order found_two = 5 /\
  name found_two = "button"%string /\
  contains (name found_two) "Index above matches: 5 > 2" = false.
Proof.
  split; [vm_compute; reflexivity|].
  split; [simpl; lia|].
  repeat split; vm_compute; reflexivity.
Qed.

Lemma getitem_above_matches_witness :
  exists msg,
    __getitem__ (one_file blank_screen) 5 found_two
    = (Raise (Exception msg), found_two) /\
    String.prefix "Index above matches: " msg = true /\
    contains (str (Z.of_nat (List.length (matches found_two)))) msg = true /\
    (5 = order found_two -> contains (str 5) msg = true) /\
    (5 = order found_two ->
     msg = ("Index above matches: " ++ str 5 ++ " > "
            ++ str (Z.of_nat (List.length (matches found_two))))%string).
Proof.
  apply (getitem_above_matches (one_file blank_screen) found_two found_two
           (matches found_two) 5).
  - reflexivity.
  - simpl. lia.
Defined.

(** * Further properties of the search *)

Section SearchMore.
Context `{CV : OpenCV}.

(** ** Screenshots *)

Lemma _find_matches_screenshots (wd : World) p s :
  screenshots (driver (snd (_find_matches wd p s))) =
  match fst (_find_matches wd p s) with
  | Ok _ => S (screenshots (driver s))
  | Raise _ => screenshots (driver s)
  end.
Proof.
  rewrite _find_matches_unfold.
  destruct (negb (isfile wd p)); [reflexivity|].
  destruct (negb (in_range (disposal s) 2)); [reflexivity|].
  destruct (negb (in_range (order s) (max_occurrences s))); [reflexivity|].
  cbv zeta.
  destruct (scale_loop _ _ _ _ _ _ _ _) as [[[[mv ml] r] rs]|]; reflexivity.
Qed.

Lemma for_each_screenshots (wd : World) l s :
  match fst (for_each l (_find_matches wd) s) with
  | Ok _ =>
      screenshots (driver (snd (for_each l (_find_matches wd) s)))
      = (screenshots (driver s) + List.length l)%nat
  | Raise _ =>
      (screenshots (driver s)
       <= screenshots (driver (snd (for_each l (_find_matches wd) s)))
       < screenshots (driver s) + List.length l)%nat
  end.
Proof.
  revert s. induction l as [|p l IH]; intro s.
  - cbn. lia.
  - cbn [for_each]. unfold bind.
    pose proof (_find_matches_screenshots wd p s) as H1.
    destruct (_find_matches wd p s) as [[[]|e] s1]; cbn [fst snd] in *.
    + specialize (IH s1).
      destruct (for_each l (_find_matches wd) s1) as [[[]|e] s2];
        cbn [fst snd List.length] in *; lia.
    + cbn [List.length]. lia.
Qed.

(** X1. A search takes at most one screenshot for each resolved template
    path, and exactly one for each when it returns. *)
Theorem search_screenshots (wd : World) (s : VisualElement) :
  match fst (_search_all_matches wd s) with
  | Ok _ =>
      screenshots (driver (snd (_search_all_matches wd s)))
      = (screenshots (driver s) + List.length (glob wd (path s)))%nat
  | Raise _ =>
      (screenshots (driver s)
       <= screenshots (driver (snd (_search_all_matches wd s)))
       <= screenshots (driver s) + List.length (glob wd (path s)))%nat
  end.
Proof.
  rewrite _search_all_matches_unfold.
  pose proof (for_each_screenshots wd (glob wd (path s))
                (set_matches (set_searched s false) [])) as H.
  destruct (for_each _ _ _) as [[[]|e] s1]; cbn [fst snd] in *;
    cbn [driver set_searched set_matches] in *; lia.
Qed.

(** ** The flag after a search *)

(** X2. The searched flag is set exactly by a search that returns: a search
    that fails leaves it cleared, so the next query searches again instead of
    answering from a half-built list. *)
Theorem failed_search_is_not_cached (wd wd' : World) (s : VisualElement) :
  _searched (snd (_search_all_matches wd s)) =
  match fst (_search_all_matches wd s) with
  | Ok _ => true
  | Raise _ => false
  end /\
  (forall e, fst (_search_all_matches wd s) = Raise e ->
     cached_or_search wd' (snd (_search_all_matches wd s)) =
     match _search_all_matches wd' (snd (_search_all_matches wd s)) with
     | (Ok _, s') => (Ok (matches s'), s')
     | (Raise e', s') => (Raise e', s')
     end).
Proof.
  assert (Hflag : _searched (snd (_search_all_matches wd s)) =
                  match fst (_search_all_matches wd s) with
                  | Ok _ => true
                  | Raise _ => false
                  end).
  { rewrite _search_all_matches_unfold.
    destruct (for_each_find_matches_frame wd (glob wd (path s))
                (set_matches (set_searched s false) [])) as [_ [Hs _]].
    destruct (for_each _ _ _) as [[[]|e] s1]; cbn [fst snd] in *;
      [reflexivity | exact Hs]. }
  split; [exact Hflag|].
  intros e He. rewrite cached_or_search_unfold, Hflag, He. reflexivity.
Qed.

(** ** Scores and the threshold *)

Lemma cover_loop_above n template h w meth sim r resized max_loc ms :
  Forall (fun m => (sim < msimilarity m)%Q) ms ->
  Forall (fun m => (sim < msimilarity m)%Q)
         (cover_loop n template h w meth sim r resized max_loc ms).
Proof.
  revert resized max_loc ms.
  induction n as [|n IH]; intros resized max_loc ms Hms; cbn [cover_loop].
  - exact Hms.
  - destruct (minMaxLoc _) as [[[mn mv] mnl] ml].
    destruct (fle mv sim) eqn:Hle; [exact Hms|].
    apply IH. apply Forall_app. split; [exact Hms|].
    constructor; [|constructor].
    unfold new_match, _get_bounds. cbn [msimilarity]. now apply fle_false.
Qed.

(** What the scale loop ends with is what it started with or comes from one
    of its scales. *)
Lemma scale_loop_result gray template h w meth sim scs occ :
  scale_loop gray template h w meth sim scs occ = occ \/
  exists v loc scale mn mnl,
    let resized := resize gray (int (inject_Z (snd (shape gray)) * scale)) in
    scale_loop gray template h w meth sim scs occ
    = Some (v, loc, (inject_Z (snd (shape gray)) / inject_Z (snd (shape resized)))%Q,
            resized) /\
    In scale scs /\
    (fst (shape resized) <? h) || (snd (shape resized) <? w) = false /\
    minMaxLoc (matchTemplate resized template meth) = (mn, v, mnl, loc) /\
    (sim < v)%Q /\
    In v (evaluated gray template h w meth scs).
Proof.
  revert occ. induction scs as [|scale rest IH]; intro occ.
  - left. reflexivity.
  - cbn [scale_loop evaluated].
    destruct (_ || _) eqn:Hsmall; [left; reflexivity|].
    destruct (minMaxLoc _) as [[[mn mv] mnl] ml] eqn:Hmm.
    assert (Hrest : forall occ0,
               scale_loop gray template h w meth sim rest occ0 = occ0 \/
               exists v loc scale0 mn0 mnl0,
                 let resized := resize gray (int (inject_Z (snd (shape gray)) * scale0)) in
                 scale_loop gray template h w meth sim rest occ0
                 = Some (v, loc,
                         (inject_Z (snd (shape gray)) / inject_Z (snd (shape resized)))%Q,
                         resized) /\
                 In scale0 (scale :: rest) /\
                 (fst (shape resized) <? h) || (snd (shape resized) <? w) = false /\
                 minMaxLoc (matchTemplate resized template meth) = (mn0, v, mnl0, loc) /\
                 (sim < v)%Q /\
                 In v (mv :: evaluated gray template h w meth rest)).
    { intro occ0. destruct (IH occ0) as [E | (v & loc & sc & mn0 & mnl0 & E & Hin & R)].
      - left. exact E.
      - right. exists v, loc, sc, mn0, mnl0. cbv zeta in *.
        split; [exact E|]. split; [now right|].
        destruct R as (R1 & R2 & R3 & R4). repeat split; try assumption. now right. }
    assert (Hnew :
              fle mv sim = false ->
              exists v loc scale0 mn0 mnl0,
                let resized := resize gray (int (inject_Z (snd (shape gray)) * scale0)) in
                scale_loop gray template h w meth sim rest
                  (Some (mv, ml,
                         (inject_Z (snd (shape gray))
                          / inject_Z (snd (shape (resize gray
                               (int (inject_Z (snd (shape gray)) * scale))))))%Q,
                         resize gray (int (inject_Z (snd (shape gray)) * scale))))
                = Some (v, loc,
                        (inject_Z (snd (shape gray)) / inject_Z (snd (shape resized)))%Q,
                        resized) /\
                In scale0 (scale :: rest) /\
                (fst (shape resized) <? h) || (snd (shape resized) <? w) = false /\
                minMaxLoc (matchTemplate resized template meth) = (mn0, v, mnl0, loc) /\
                (sim < v)%Q /\
                In v (mv :: evaluated gray template h w meth rest)).
    { intro Hle.
      destruct (Hrest (Some (mv, ml,
                         (inject_Z (snd (shape gray))
                          / inject_Z (snd (shape (resize gray
                               (int (inject_Z (snd (shape gray)) * scale))))))%Q,
                         resize gray (int (inject_Z (snd (shape gray)) * scale)))))
        as [E | R]; [|exact R].
      exists mv, ml, scale, mn, mnl. cbv zeta.
      split; [exact E|]. split; [now left|]. split; [exact Hsmall|].
      split; [exact Hmm|]. split; [now apply fle_false | now left]. }
    destruct (fle mv sim) eqn:Hle.
    + apply Hrest.
    + specialize (Hnew eq_refl).
      destruct occ as [[[[bv bl] br] bi]|]; [|right; exact Hnew].
      destruct (fgt mv bv); [right; exact Hnew | apply Hrest].
Qed.

(** X3. The tuple the scale loop settles on comes from one of the scales:
    its image is the screen resized to that scale and is no smaller than the
    template, its ratio is the screen width over the resized width, its score
    and location are the maximum of the score map of that image, and the score
    is above the threshold. *)
Theorem scale_loop_winner gray template h w meth sim scs v loc r resized :
  scale_loop gray template h w meth sim scs None = Some (v, loc, r, resized) ->
  (sim < v)%Q /\
  h <= fst (shape resized) /\ w <= snd (shape resized) /\
  r = (inject_Z (snd (shape gray)) / inject_Z (snd (shape resized)))%Q /\
  (exists scale, In scale scs /\
                 resized = resize gray (int (inject_Z (snd (shape gray)) * scale))) /\
  (exists mn mnl, minMaxLoc (matchTemplate resized template meth) = (mn, v, mnl, loc)).
Proof.
  intro E.
  destruct (scale_loop_result gray template h w meth sim scs None)
    as [E0 | (v0 & loc0 & sc & mn & mnl & E1 & Hin & Hsz & Hmm & Hv & _)].
  - rewrite E in E0. discriminate.
  - cbv zeta in *. rewrite E in E1. inversion E1; subst. clear E1.
    apply orb_false_iff in Hsz. destruct Hsz as [Hh Hw].
    apply Z.ltb_ge in Hh, Hw.
    split; [exact Hv|]. split; [exact Hh|]. split; [exact Hw|].
    split; [reflexivity|]. split; [exists sc; now split|].
    exists mn, mnl. exact Hmm.
Qed.

Lemma scale_loop_max gray template h w meth sim scs (occ : option occurrence_t) :
  match occ with
  | Some (bv, _, _, _) => (sim < bv)%Q
  | None => True
  end ->
  match scale_loop gray template h w meth sim scs occ with
  | None => occ = None /\
            Forall (fun sc => (sc <= sim)%Q) (evaluated gray template h w meth scs)
  | Some (v, _, _, _) =>
      (sim < v)%Q /\
      Forall (fun sc => (sc <= v)%Q) (evaluated gray template h w meth scs) /\
      match occ with
      | Some (bv, _, _, _) => (bv <= v)%Q
      | None => True
      end
  end.
Proof.
  revert occ. induction scs as [|scale rest IH]; intros occ Hocc.
  - cbn. destruct occ as [[[[bv bl] br] bi]|].
    + split; [exact Hocc|]. split; [constructor | apply Qle_refl].
    + split; [reflexivity | constructor].
  - cbn [scale_loop evaluated].
    destruct (_ || _).
    { destruct occ as [[[[bv bl] br] bi]|].
      + split; [exact Hocc|]. split; [constructor | apply Qle_refl].
      + split; [reflexivity | constructor]. }
    destruct (minMaxLoc _) as [[[mn mv] mnl] ml].
    assert (Hnew : forall r0 i0,
               (sim < mv)%Q ->
               match scale_loop gray template h w meth sim rest (Some (mv, ml, r0, i0)) with
               | None => False
               | Some (v, _, _, _) =>
                   (sim < v)%Q /\
                   Forall (fun sc => (sc <= v)%Q)
                          (mv :: evaluated gray template h w meth rest) /\
                   (mv <= v)%Q
               end).
    { intros r0 i0 Hmv. specialize (IH (Some (mv, ml, r0, i0)) Hmv).
      destruct (scale_loop _ _ _ _ _ _ rest _) as [[[[v l] r1] i1]|].
      - destruct IH as (Hv & Hall & Hb). repeat split; try assumption.
        constructor; assumption.
      - destruct IH as [E _]. discriminate. }
    destruct (fle mv sim) eqn:Hle.
    + apply fle_true in Hle. specialize (IH occ Hocc).
      destruct (scale_loop _ _ _ _ _ _ rest occ) as [[[[v l] r1] i1]|].
      * destruct IH as (Hv & Hall & Hb). repeat split; try assumption.
        constructor; [|assumption].
        apply Qlt_le_weak. now apply Qle_lt_trans with sim.
      * destruct IH as [E Hall]. split; [exact E|]. constructor; assumption.
    + apply fle_false in Hle.
      destruct occ as [[[[bv bl] br] bi]|].
      * destruct (fgt mv bv) eqn:Hg.
        -- apply fgt_true in Hg.
           specialize (Hnew (inject_Z (snd (shape gray))
                             / inject_Z (snd (shape (resize gray
                                 (int (inject_Z (snd (shape gray)) * scale))))))%Q
                            (resize gray (int (inject_Z (snd (shape gray)) * scale))) Hle).
           destruct (scale_loop _ _ _ _ _ _ rest _) as [[[[v l] r1] i1]|]; [|contradiction].
           destruct Hnew as (Hv & Hall & Hb). repeat split; try assumption.
           apply Qlt_le_weak. now apply Qlt_le_trans with mv.
        -- unfold fgt in Hg. apply negb_false_iff in Hg. apply fle_true in Hg.
           specialize (IH (Some (bv, bl, br, bi)) Hocc).
           destruct (scale_loop _ _ _ _ _ _ rest _) as [[[[v l] r1] i1]|].
           ++ destruct IH as (Hv & Hall & Hb). repeat split; try assumption.
              constructor; [|assumption]. now apply Qle_trans with bv.
           ++ destruct IH as [E _]. discriminate.
      * specialize (Hnew (inject_Z (snd (shape gray))
                          / inject_Z (snd (shape (resize gray
                              (int (inject_Z (snd (shape gray)) * scale))))))%Q
                         (resize gray (int (inject_Z (snd (shape gray)) * scale))) Hle).
        destruct (scale_loop _ _ _ _ _ _ rest _) as [[[[v l] r1] i1]|]; [|contradiction].
        destruct Hnew as (Hv & Hall & Hb). repeat split; assumption.
Qed.

(** X4. The scale loop keeps the best score: when it ends empty-handed every
    score it saw is at or below the threshold; otherwise the score it keeps
    is one it saw, is above the threshold and is at least every score it
    saw. *)
Theorem scale_loop_picks_maximum gray template h w meth sim scs :
  match scale_loop gray template h w meth sim scs None with
  | None => Forall (fun sc => (sc <= sim)%Q) (evaluated gray template h w meth scs)
  | Some (v, _, _, _) =>
      (sim < v)%Q /\
      In v (evaluated gray template h w meth scs) /\
      Forall (fun sc => (sc <= v)%Q) (evaluated gray template h w meth scs)
  end.
Proof.
  pose proof (scale_loop_max gray template h w meth sim scs None I) as Hmax.
  destruct (scale_loop_result gray template h w meth sim scs None)
    as [E0 | (v0 & loc0 & sc & mn & mnl & E1 & _ & _ & _ & _ & Hin)].
  - rewrite E0 in Hmax. rewrite E0. apply Hmax.
  - cbv zeta in E1. rewrite E1 in Hmax. rewrite E1.
    destruct Hmax as (Hv & Hall & _). repeat split; assumption.
Qed.

(** One template adds only matches above the threshold. *)
Lemma _find_matches_above (wd : World) p s :
  Forall (fun m => (similarity s < msimilarity m)%Q) (matches s) ->
  Forall (fun m => (similarity s < msimilarity m)%Q)
         (matches (snd (_find_matches wd p s))).
Proof.
  intro Hms. rewrite _find_matches_unfold.
  destruct (negb (isfile wd p)); [exact Hms|].
  destruct (negb (in_range (disposal s) 2)); [exact Hms|].
  destruct (negb (in_range (order s) (max_occurrences s))); [exact Hms|].
  cbv zeta.
  pose proof (scale_loop_max
                (screenshot_gray wd (screenshots (driver s))) (imread_gray wd p)
                (fst (shape (imread_gray wd p))) (snd (shape (imread_gray wd p)))
                (method s) (similarity s) scales None I) as Hmax.
  destruct (scale_loop _ _ _ _ _ _ _ _) as [[[[v l] r] i]|]; cbn [snd matches set_matches
                                                                  set_driver].
  - apply cover_loop_above. apply Forall_app. split; [exact Hms|].
    constructor; [|constructor].
    unfold new_match, _get_bounds. cbn [msimilarity]. apply Hmax.
  - exact Hms.
Qed.

Lemma for_each_above (wd : World) l s :
  Forall (fun m => (similarity s < msimilarity m)%Q) (matches s) ->
  Forall (fun m => (similarity s < msimilarity m)%Q)
         (matches (snd (for_each l (_find_matches wd) s))).
Proof.
  revert s. induction l as [|p l IH]; intros s Hms.
  - exact Hms.
  - cbn [for_each]. unfold bind.
    pose proof (_find_matches_above wd p s Hms) as H1.
    destruct (_find_matches_frame wd p s) as [Hc _].
    destruct (_find_matches wd p s) as [[[]|e] s1]; cbn [snd] in *; [|exact H1].
    assert (Hsim : similarity s1 = similarity s) by apply Hc.
    rewrite <- Hsim in H1. specialize (IH s1 H1). rewrite Hsim in IH. exact IH.
Qed.

Lemma disposed_Permutation d ms : Permutation ms (disposed d ms).
Proof.
  unfold disposed.
  destruct (d =? VERTICAL_ORDER); [apply list_sort_Permutation|].
  destruct (d =? HORIZONTAL_ORDER); [apply list_sort_Permutation|].
  destruct (d =? SIMILARITY_ORDER); [apply list_sort_Permutation|].
  apply Permutation_refl.
Qed.

(** The list of a search is the list of the template loop, ordered. *)
Lemma search_matches_disposed (wd : World) s :
  matches (snd (_search_all_matches wd s)) =
  match fst (_search_all_matches wd s) with
  | Ok _ => disposed (disposal s) (found_matches wd s)
  | Raise _ => found_matches wd s
  end.
Proof.
  unfold found_matches. rewrite _search_all_matches_unfold.
  change (snd (reset_object s)) with (set_matches (set_searched s false) []).
  destruct (for_each_find_matches_frame wd (glob wd (path s))
              (set_matches (set_searched s false) [])) as [Hc _].
  destruct (for_each _ _ _) as [[[]|e] s1]; cbn [fst snd matches set_searched set_matches] in *;
    [|reflexivity].
  replace (disposal s1) with (disposal s) by (symmetry; apply Hc). reflexivity.
Qed.

(** X5. Every match a search leaves, whether it returns or fails, has a
    similarity above the threshold of the element. *)
Theorem matches_exceed_threshold (wd : World) (s : VisualElement) :
  Forall (fun m => (similarity s < msimilarity m)%Q)
         (matches (snd (_search_all_matches wd s))).
Proof.
  assert (Hf : Forall (fun m => (similarity s < msimilarity m)%Q) (found_matches wd s)).
  { unfold found_matches.
    exact (for_each_above wd (glob wd (path s)) (snd (reset_object s)) (Forall_nil _)). }
  rewrite search_matches_disposed.
  destruct (fst (_search_all_matches wd s)); [|exact Hf].
  eapply Permutation_Forall; [apply disposed_Permutation | exact Hf].
Qed.

(** X6. The ordering step neither drops nor invents a match: the list a
    search leaves is a permutation of the list the template loop found. *)
Theorem ordering_keeps_matches (wd : World) (s : VisualElement) :
  Permutation (found_matches wd s) (matches (snd (_search_all_matches wd s))).
Proof.
  rewrite search_matches_disposed.
  destruct (fst (_search_all_matches wd s));
    [apply disposed_Permutation | apply Permutation_refl].
Qed.

End SearchMore.

(** ** Ties and the first match *)

Lemma insert_sorted_filter {A} (le_key : A -> A -> bool) (P : A -> bool) a l :
  (forall u v, P u = true -> P v = true -> le_key u v = true) ->
  filter P (insert_sorted le_key a l) = filter P (a :: l).
Proof.
  intro Hclass. induction l as [|b l IH]; [reflexivity|].
  cbn [insert_sorted]. destruct (le_key a b) eqn:Hab; [reflexivity|].
  cbn [filter] in *. rewrite IH.
  destruct (P a) eqn:Ha; destruct (P b) eqn:Hb; try reflexivity.
  rewrite (Hclass a b Ha Hb) in Hab. discriminate.
Qed.

Lemma list_sort_filter {A} (le_key : A -> A -> bool) (P : A -> bool) l :
  (forall u v, P u = true -> P v = true -> le_key u v = true) ->
  filter P (list_sort le_key l) = filter P l.
Proof.
  intro Hclass. induction l as [|a l IH]; [reflexivity|].
  cbn [list_sort]. rewrite insert_sorted_filter by exact Hclass.
  cbn [filter]. now rewrite IH.
Qed.

Lemma disposed_filter_same_key d m0 ms :
  filter (same_key d m0) (disposed d ms) = filter (same_key d m0) ms.
Proof.
  unfold disposed, same_key.
  destruct (d =? VERTICAL_ORDER).
  { apply list_sort_filter. intros u v Hu Hv.
    apply Z.eqb_eq in Hu, Hv. apply Z.leb_le. lia. }
  destruct (d =? HORIZONTAL_ORDER).
  { apply list_sort_filter. intros u v Hu Hv.
    apply Z.eqb_eq in Hu, Hv. apply Z.leb_le. lia. }
  destruct (d =? SIMILARITY_ORDER); [|reflexivity].
  apply list_sort_filter. intros u v Hu Hv.
  apply Qeq_bool_iff in Hu, Hv. apply fle_true.
  rewrite Hu, Hv. apply Qle_refl.
Qed.

Lemma disposed_Sorted d ms :
  (d = SIMILARITY_ORDER ->
   Sorted (fun a b => (msimilarity b <= msimilarity a)%Q) (disposed d ms)) /\
  (d = VERTICAL_ORDER -> Sorted (fun a b => y a <= y b) (disposed d ms)) /\
  (d = HORIZONTAL_ORDER -> Sorted (fun a b => x a <= x b) (disposed d ms)).
Proof.
  split; [|split]; intros ->; unfold disposed; cbn [Z.eqb];
    (eapply Sorted_weaken; [|apply list_sort_Sorted]).
  - intros a b Hab. now apply fle_true.
  - intros a b. apply fle_total.
  - intros a b Hab. now apply Z.leb_le.
  - intros a b. apply leb_total.
  - intros a b Hab. now apply Z.leb_le.
  - intros a b. apply leb_total.
Qed.

Lemma Sorted_head_bounds {A} (R : A -> A -> Prop) (a : A) (l : list A) :
  (forall u v w, R u v -> R v w -> R u w) ->
  Sorted R (a :: l) -> Forall (R a) l.
Proof.
  intros Htrans Hs.
  apply Sorted_StronglySorted in Hs; [|exact Htrans].
  now inversion Hs.
Qed.

Section OrderMore.
Context `{CV : OpenCV}.

(** X7. The ordering is stable: the matches that tie with a given match on
    the key of the disposal stand, after the search, in the order in which
    the template loop found them. *)
Theorem ordering_is_stable (wd : World) (s : VisualElement) (m0 : VisualMatch) :
  filter (same_key (disposal s) m0) (matches (snd (_search_all_matches wd s)))
  = filter (same_key (disposal s) m0) (found_matches wd s).
Proof.
  rewrite search_matches_disposed.
  destruct (fst (_search_all_matches wd s)); [|reflexivity].
  apply disposed_filter_same_key.
Qed.

(** X8. After a search that returned with at least one match, [match] (the
    access at index 0) returns the head of the list without searching, and
    that head is the best of all: no match is more similar under
    [SIMILARITY_ORDER], none is higher up under [VERTICAL_ORDER], none is
    further left under [HORIZONTAL_ORDER]. *)
Theorem match_is_first_in_order (wd wd' : World) (s s' : VisualElement) (u : unit)
        (m : VisualMatch) (rest : list VisualMatch) :
  _search_all_matches wd s = (Ok u, s') ->
  matches s' = m :: rest ->
  match_ wd' s' = (Ok m, s') /\
  (disposal s = SIMILARITY_ORDER ->
   Forall (fun m' => (msimilarity m' <= msimilarity m)%Q) rest) /\
  (disposal s = VERTICAL_ORDER -> Forall (fun m' => y m <= y m') rest) /\
  (disposal s = HORIZONTAL_ORDER -> Forall (fun m' => x m <= x m') rest).
Proof.
  intros Hsearch Hms.
  pose proof (_search_all_matches_ok wd s u s' Hsearch) as Hflag.
  pose proof (search_matches_disposed wd s) as Hd.
  rewrite Hsearch in Hd. cbn [fst snd] in Hd. rewrite Hms in Hd.
  destruct (disposed_Sorted (disposal s) (found_matches wd s)) as (Hsim & Hver & Hhor).
  rewrite <- Hd in Hsim, Hver, Hhor.
  split; [|split; [|split]].
  - unfold match_, __getitem__, bind.
    rewrite cached_or_search_unfold, Hflag, Hms. reflexivity.
  - intro E.
    refine (Sorted_head_bounds (fun a b => (msimilarity b <= msimilarity a)%Q)
                               m rest _ (Hsim E)).
    intros a b c Hab Hbc. now apply Qle_trans with (msimilarity b).
  - intro E.
    refine (Sorted_head_bounds (fun a b => y a <= y b) m rest _ (Hver E)).
    intros a b c Hab Hbc. lia.
  - intro E.
    refine (Sorted_head_bounds (fun a b => x a <= x b) m rest _ (Hhor E)).
    intros a b c Hab Hbc. lia.
Qed.

(** X9. After [is_visible] has returned, [len] answers from the list that
    [is_visible] left, in any world and without touching the object, and
    [is_visible] was true exactly when that length is positive. *)
Theorem is_visible_then_len (wd wd' : World) (s s' : VisualElement) (b : bool) :
  is_visible wd s = (Ok b, s') ->
  __len__ wd' s' = (Ok (Z.of_nat (List.length (matches s'))), s') /\
  b = (0 <? Z.of_nat (List.length (matches s'))).
Proof.
  unfold is_visible, bind, get, ret.
  destruct (_search_all_matches wd s) as [[[]|e] s1] eqn:Hsearch; intro H;
    inversion H; subst; clear H.
  pose proof (_search_all_matches_ok wd s tt s' Hsearch) as Hflag.
  split.
  - unfold __len__, bind. rewrite cached_or_search_unfold, Hflag. reflexivity.
  - now destruct (matches s').
Qed.

(** X10. A path without wildcard characters resolves to at most one file:
    the search takes at most one screenshot and leaves at most
    [max_occurrences + 1] matches. *)
Theorem plain_path_search_is_bounded (wd : World) (s : VisualElement) :
  has_magic (path s) = false ->
  (List.length (matches (snd (_search_all_matches wd s)))
   <= S (Z.to_nat (max_occurrences s)))%nat /\
  (screenshots (driver (snd (_search_all_matches wd s)))
   <= S (screenshots (driver s)))%nat.
Proof.
  intro Hm.
  assert (Hlen : (List.length (glob wd (path s)) <= 1)%nat).
  { unfold glob. rewrite Hm.
    destruct (basename_empty (path s)); [destruct (isdir wd (path s)) |
                                        destruct (lexists wd (path s))]; cbn; lia. }
  split.
  - rewrite search_matches_disposed.
    assert (Hf : (List.length (found_matches wd s)
                  <= List.length (glob wd (path s)) * S (Z.to_nat (max_occurrences s)))%nat).
    { unfold found_matches.
      destruct (for_each_find_matches_frame wd (glob wd (path s)) (snd (reset_object s)))
        as [_ [_ [extra [E L]]]].
      rewrite E. exact L. }
    destruct (fst (_search_all_matches wd s)); [rewrite disposed_length|]; nia.
  - rewrite _search_all_matches_unfold.
    pose proof (for_each_screenshots wd (glob wd (path s))
                  (set_matches (set_searched s false) [])) as H.
    destruct (for_each _ _ _) as [[[]|e] s1]; cbn [fst snd driver set_searched
                                                    set_matches] in *; lia.
Qed.

End OrderMore.

(** ** The box and the tap point *)

Lemma int_scaled (a : Z) (r : Q) :
  int (inject_Z a * r) = Z.quot (a * Qnum r) (Z.pos (Qden r)).
Proof. reflexivity. Qed.

Lemma int_half (w : Z) : int (inject_Z w / 2) = Z.quot w 2.
Proof. unfold int. cbn. now rewrite Z.mul_1_r. Qed.

Lemma scaled_le (a b : Z) (r : Q) :
  (0 <= r)%Q -> a <= b -> int (inject_Z a * r) <= int (inject_Z b * r).
Proof.
  intros Hr Hab. rewrite !int_scaled.
  apply Z.quot_le_mono; [reflexivity|].
  unfold Qle in Hr. cbn in Hr. nia.
Qed.

Lemma scaled_by_one (a : Z) (r : Q) : (r == 1)%Q -> int (inject_Z a * r) = a.
Proof.
  intro Hr. rewrite int_scaled. unfold Qeq in Hr. cbn in Hr.
  rewrite Z.mul_1_r in Hr. rewrite Hr.
  apply Z.quot_mul. discriminate.
Qed.

Lemma scaled_shift (a w : Z) (r : Q) :
  (1 <= r)%Q -> 0 <= a -> 0 <= w ->
  int (inject_Z a * r) + w <= int (inject_Z (a + w) * r).
Proof.
  intros Hr Ha Hw. rewrite !int_scaled.
  unfold Qle in Hr. cbn in Hr.
  assert (Hd : 0 < Z.pos (Qden r)) by reflexivity.
  assert (Hn : Z.pos (Qden r) <= Qnum r) by lia.
  rewrite !Z.quot_div_nonneg; try nia.
  rewrite <- Z.div_add by lia.
  apply Z.div_le_mono; nia.
Qed.

(** X11. For a ratio that is not negative and a template of non-negative
    size, the box of [_get_bounds] is well formed: its start is not beyond
    its end, in either direction. *)
Theorem get_bounds_well_formed (loc : Z * Z) (w h : Z) (r : Q) :
  (0 <= r)%Q -> 0 <= w -> 0 <= h ->
  fst (fst (fst (_get_bounds loc w h r))) <= snd (fst (_get_bounds loc w h r)) /\
  snd (fst (fst (_get_bounds loc w h r))) <= snd (_get_bounds loc w h r).
Proof.
  intros Hr Hw Hh. unfold _get_bounds. cbn [fst snd].
  split; apply scaled_le; try assumption; lia.
Qed.

(** X12. At ratio 1 (the screen matched at full size) the match is the box:
    its centre is the midpoint of the box of [_get_bounds], rounded down, and
    its width and height are those of the box. *)
Theorem match_at_full_scale_is_centred (loc : Z * Z) (w h : Z) (r v : Q) :
  (r == 1)%Q -> 0 <= w -> 0 <= h ->
  _get_bounds loc w h r = (fst loc, snd loc, fst loc + w, snd loc + h) /\
  x (new_match loc w h r v) = (fst loc + (fst loc + w)) / 2 /\
  y (new_match loc w h r v) = (snd loc + (snd loc + h)) / 2 /\
  width (new_match loc w h r v) = (fst loc + w) - fst loc /\
  height (new_match loc w h r v) = (snd loc + h) - snd loc.
Proof.
  intros Hr Hw Hh.
  assert (Hb : _get_bounds loc w h r = (fst loc, snd loc, fst loc + w, snd loc + h)).
  { unfold _get_bounds. now rewrite !scaled_by_one. }
  split; [exact Hb|].
  unfold new_match. rewrite Hb. cbn [x y width height].
  rewrite !int_half, !Z.quot_div_nonneg by lia.
  replace (fst loc + (fst loc + w)) with (w + fst loc * 2) by lia.
  replace (snd loc + (snd loc + h)) with (h + snd loc * 2) by lia.
  rewrite !Z.div_add by lia. lia.
Qed.

(** X13. For a ratio of at least 1 (the screen was shrunk, never enlarged),
    a location with non-negative coordinates and a template of non-negative
    size, the point of the match, where [click] taps, lies inside the box of
    [_get_bounds]. *)
Theorem match_point_inside_box (loc : Z * Z) (w h : Z) (r v : Q) :
  (1 <= r)%Q -> 0 <= fst loc -> 0 <= snd loc -> 0 <= w -> 0 <= h ->
  fst (fst (fst (_get_bounds loc w h r))) <= x (new_match loc w h r v)
  <= snd (fst (_get_bounds loc w h r)) /\
  snd (fst (fst (_get_bounds loc w h r))) <= y (new_match loc w h r v)
  <= snd (_get_bounds loc w h r).
Proof.
  intros Hr Hx Hy Hw Hh.
  unfold new_match, _get_bounds. cbn [fst snd x y].
  rewrite !int_half.
  pose proof (scaled_shift (fst loc) w r Hr Hx Hw) as Hsx.
  pose proof (scaled_shift (snd loc) h r Hr Hy Hh) as Hsy.
  assert (Hw2 : 0 <= Z.quot w 2 <= w).
  { rewrite Z.quot_div_nonneg by lia. split; [apply Z.div_pos; lia|].
    apply Z.div_le_upper_bound; lia. }
  assert (Hh2 : 0 <= Z.quot h 2 <= h).
  { rewrite Z.quot_div_nonneg by lia. split; [apply Z.div_pos; lia|].
    apply Z.div_le_upper_bound; lia. }
  lia.
Qed.

(** * Waiting and clicking *)

Lemma same_config_refl s : same_config s s.
Proof. repeat split. Qed.

Lemma same_config_trans s1 s2 s3 :
  same_config s1 s2 -> same_config s2 s3 -> same_config s1 s3.
Proof. unfold same_config. intuition congruence. Qed.

Section PollerFacts.
Context `{CV : OpenCV}.

Lemma _search_all_matches_raise (wd : World) s e s' :
  _search_all_matches wd s = (Raise e, s') -> _searched s' = false.
Proof.
  rewrite _search_all_matches_unfold.
  destruct (for_each_find_matches_frame wd (glob wd (path s))
              (set_matches (set_searched s false) [])) as [_ [Hs _]].
  destruct (for_each _ _ _) as [[[]|e0] s1]; intro H; inversion H; subst.
  exact Hs.
Qed.

Lemma is_visible_ok (wd : World) s b s1 :
  is_visible wd s = (Ok b, s1) ->
  _search_all_matches wd s = (Ok tt, s1) /\
  b = match matches s1 with [] => false | _ :: _ => true end.
Proof.
  unfold is_visible, bind, get, ret.
  destruct (_search_all_matches wd s) as [[[]|e] s2]; intro H; inversion H; subst.
  split; reflexivity.
Qed.

Lemma is_visible_raise (wd : World) s e s1 :
  is_visible wd s = (Raise e, s1) -> _search_all_matches wd s = (Raise e, s1).
Proof.
  unfold is_visible, bind, get, ret.
  destruct (_search_all_matches wd s) as [[[]|e0] s2]; intro H; inversion H; subst.
  reflexivity.
Qed.

Lemma is_visible_frame (wd : World) s :
  same_config s (snd (is_visible wd s)).
Proof.
  pose proof (_search_all_matches_frame wd s) as Hc.
  unfold is_visible, bind, get, ret.
  destruct (_search_all_matches wd s) as [[[]|e] s2]; exact Hc.
Qed.

(** What the loop of the waits has established when it ends. *)
Lemma wait_loop_post until msg (env : Environment) start timeout fuel k s res n s' :
  wait_loop until msg env start timeout fuel k s = Some (res, n, s') ->
  (k < n)%nat /\ same_config s s' /\
  match res with
  | Returned =>
      _searched s' = true /\
      match matches s' with [] => false | _ :: _ => true end = until /\
      exists sp, same_config s sp /\
                 _search_all_matches (screen_at env (Nat.pred n)) sp = (Ok tt, s')
  | Raised (TimeoutException m) =>
      m = msg /\ _searched s' = true /\
      match matches s' with [] => false | _ :: _ => true end = negb until /\
      (inject_Z timeout <= now env n - start)%Q /\
      (forall j, (k < j < n)%nat -> (now env j - start < inject_Z timeout)%Q)
  | Raised (PyException e) => _searched s' = false
  end.
Proof.
  revert k s. induction fuel as [|fuel IH]; intros k s; cbn [wait_loop]; [discriminate|].
  pose proof (is_visible_frame (screen_at env k) s) as Hc.
  destruct (is_visible (screen_at env k) s) as [[visible|e] s1] eqn:Hv; cbn [snd] in Hc.
  - destruct (is_visible_ok _ _ _ _ Hv) as [Hsearch Hb].
    pose proof (_search_all_matches_ok _ _ _ _ Hsearch) as Hflag.
    destruct (Bool.eqb visible until) eqn:Hu.
    + intro H; inversion H; subst n s' res. apply Bool.eqb_prop in Hu.
      split; [lia|]. split; [exact Hc|]. split; [exact Hflag|].
      split; [congruence|].
      exists s. split; [apply same_config_refl | exact Hsearch].
    + assert (Hneg : match matches s1 with [] => false | _ :: _ => true end = negb until).
      { rewrite <- Hb. destruct visible, until; cbn in *; congruence. }
      destruct (Qle_bool (inject_Z timeout) (now env (S k) - start)) eqn:Ht.
      * intro H; inversion H; subst n s' res.
        split; [lia|]. split; [exact Hc|].
        split; [reflexivity|]. split; [exact Hflag|]. split; [exact Hneg|].
        split; [now apply Qle_bool_iff | intros j Hj; lia].
      * intro H. destruct (IH (S k) s1 H) as (Hn & Hc1 & Hres).
        split; [lia|]. split; [exact (same_config_trans _ _ _ Hc Hc1)|].
        destruct res as [|[e|m]]; [|exact Hres|].
        { destruct Hres as (Hf & Hne & sp & Hsp & Hsearch').
          split; [exact Hf|]. split; [exact Hne|].
          exists sp. split; [exact (same_config_trans _ _ _ Hc Hsp) | exact Hsearch']. }
        destruct Hres as (Hm & Hf & Hne & Hlate & Hearly).
        repeat split; try assumption.
        intros j Hj. destruct (Nat.eq_dec j (S k)) as [->|Hneq].
        -- now apply (fle_false (inject_Z timeout) (now env (S k) - start)).
        -- apply Hearly. lia.
  - intro H; inversion H; subst n s' res.
    split; [lia|]. split; [exact Hc|].
    exact (_search_all_matches_raise _ _ _ _ (is_visible_raise _ _ _ _ Hv)).
Qed.

(** More fuel does not change the result of a loop that has ended. *)
Lemma wait_loop_fuel until msg (env : Environment) start timeout fuel fuel' k s r :
  wait_loop until msg env start timeout fuel k s = Some r ->
  (fuel <= fuel')%nat ->
  wait_loop until msg env start timeout fuel' k s = Some r.
Proof.
  revert fuel' k s. induction fuel as [|fuel IH]; intros fuel' k s; cbn [wait_loop];
    [discriminate|].
  intros H Hle. destruct fuel' as [|fuel']; [lia|]. cbn [wait_loop].
  destruct (is_visible (screen_at env k) s) as [[visible|e] s1]; [|exact H].
  destruct (Bool.eqb visible until); [exact H|].
  destruct (Qle_bool _ _); [exact H|].
  apply IH; [exact H | lia].
Qed.

(** With a clock that has advanced by [k] seconds at its reading after the
    [k]-th sleep, the loop ends within [timeout + 1] calls of [is_visible]. *)
Lemma wait_loop_ends until msg (env : Environment) timeout fuel k s :
  (forall j, (now env 0 + inject_Z (Z.of_nat j) <= now env (S j))%Q) ->
  (Z.to_nat timeout + 1 <= fuel + k)%nat -> (1 <= fuel)%nat ->
  exists res n s',
    wait_loop until msg env (now env 0) timeout fuel k s = Some (res, n, s') /\
    (n <= Nat.max (S k) (Z.to_nat timeout + 1))%nat.
Proof.
  intro Hclock. revert k s. induction fuel as [|fuel IH]; intros k s Hfuel H1; [lia|].
  cbn [wait_loop].
  destruct (is_visible (screen_at env k) s) as [[visible|e] s1].
  - destruct (Bool.eqb visible until).
    + eexists _, _, _. split; [reflexivity | lia].
    + destruct (Qle_bool (inject_Z timeout) (now env (S k) - now env 0)) eqn:Ht.
      * eexists _, _, _. split; [reflexivity | lia].
      * apply (fle_false (inject_Z timeout) (now env (S k) - now env 0)) in Ht.
        specialize (Hclock k).
        assert (Hk : (inject_Z (Z.of_nat k) < inject_Z timeout)%Q) by lra.
        rewrite <- Zlt_Qlt in Hk.
        destruct (IH (S k) s1) as (res & n & s' & E & Hn); [lia | lia |].
        exists res, n, s'. split; [exact E | lia].
  - eexists _, _, _. split; [reflexivity | lia].
Qed.

(** A template that passes [_find_matches] has passed its three checks. *)
Lemma _find_matches_ok_valid (wd : World) p s :
  fst (_find_matches wd p s) = Ok tt ->
  isfile wd p = true /\ in_range (disposal s) 2 = true /\
  in_range (order s) (max_occurrences s) = true.
Proof.
  rewrite _find_matches_unfold.
  destruct (isfile wd p); cbn [negb fst]; [|discriminate].
  destruct (in_range (disposal s) 2); cbn [negb fst]; [|discriminate].
  destruct (in_range (order s) (max_occurrences s)); cbn [negb fst]; [|discriminate].
  intros _. repeat split.
Qed.

Lemma for_each_ok_valid (wd : World) l s :
  fst (for_each l (_find_matches wd) s) = Ok tt ->
  Forall (fun p => isfile wd p = true) l /\
  (l <> [] -> in_range (disposal s) 2 = true /\
              in_range (order s) (max_occurrences s) = true).
Proof.
  revert s. induction l as [|p l IH]; intros s H.
  - split; [constructor | congruence].
  - cbn [for_each] in H. unfold bind in H.
    pose proof (_find_matches_ok_valid wd p s) as Hp.
    destruct (_find_matches wd p s) as [[[]|e] s1]; cbn [fst] in *; [|discriminate].
    destruct (Hp eq_refl) as (Hf & Hd & Ho).
    destruct (IH s1 H) as [Hall _].
    split; [constructor; assumption | intros _; split; assumption].
Qed.

End PollerFacts.

Section Poll.
Context `{CV : OpenCV}.

(** A search that returns with a match has run the checks of
    [_find_matches] on every resolved path. *)
Lemma search_with_matches_checked (wd : World) (s s' : VisualElement) (u : unit) :
  _search_all_matches wd s = (Ok u, s') ->
  matches s' <> [] ->
  in_range (disposal s) 2 = true /\
  in_range (order s) (max_occurrences s) = true /\
  Forall (fun p => isfile wd p = true) (glob wd (path s)).
Proof.
  intros Hsearch Hne.
  assert (Hglob : glob wd (path s) <> []).
  { intro E. rewrite (empty_glob_search wd s E) in Hsearch.
    inversion Hsearch; subst. now apply Hne. }
  rewrite _search_all_matches_unfold in Hsearch.
  pose proof (for_each_ok_valid wd (glob wd (path s))
                (set_matches (set_searched s false) [])) as Hv.
  destruct (for_each _ _ _) as [[[]|e] s1]; [|discriminate].
  destruct (Hv eq_refl) as [Hall Hcfg].
  destruct (Hcfg Hglob) as [Hd Ho].
  split; [exact Hd|]. split; [exact Ho | exact Hall].
Qed.

(** X14. A search that returns with at least one match has read every
    resolved path as a regular file and has checked the configuration: the
    disposal is [SIMILARITY_ORDER] or [VERTICAL_ORDER] and the order lies in
    [range(max_occurrences)]. *)
Theorem search_with_matches_has_valid_config (wd : World) (s s' : VisualElement)
        (u : unit) :
  _search_all_matches wd s = (Ok u, s') ->
  matches s' <> [] ->
  (disposal s = SIMILARITY_ORDER \/ disposal s = VERTICAL_ORDER) /\
  0 <= order s < max_occurrences s /\
  Forall (fun p => isfile wd p = true) (glob wd (path s)).
Proof.
  intros Hsearch Hne.
  destruct (search_with_matches_checked wd s s' u Hsearch Hne) as (Hd & Ho & Hall).
  unfold in_range in Hd, Ho.
  apply andb_true_iff in Hd, Ho.
  rewrite Z.leb_le, Z.ltb_lt in Hd, Ho.
  unfold SIMILARITY_ORDER, VERTICAL_ORDER.
  split; [lia|]. split; [lia | exact Hall].
Qed.

(** X15. With a clock that reads at least [k] seconds after the start at its
    reading after the [k]-th sleep, both waits end, with an answer that is
    the same for every supply of fuel from [timeout + 1] on, after at most
    [timeout + 1] calls of [is_visible] (one call when the timeout is zero or
    negative). *)
Theorem waits_end_within_timeout (env : Environment) (timeout : Z) (s : VisualElement) :
  (forall j, (now env 0 + inject_Z (Z.of_nat j) <= now env (S j))%Q) ->
  (exists res n s',
      (n <= Z.to_nat timeout + 1)%nat /\
      forall fuel, (Z.to_nat timeout + 1 <= fuel)%nat ->
                   wait_until_visible env timeout fuel s = Some (res, n, s')) /\
  (exists res n s',
      (n <= Z.to_nat timeout + 1)%nat /\
      forall fuel, (Z.to_nat timeout + 1 <= fuel)%nat ->
                   wait_until_not_visible env timeout fuel s = Some (res, n, s')).
Proof.
  intro Hclock. unfold wait_until_visible, wait_until_not_visible. cbv zeta.
  split.
  - destruct (wait_loop_ends true
                ("Cannot find " ++ dquote ++ name s ++ dquote ++ " in "
                 ++ str timeout ++ " seconds")%string
                env timeout (Z.to_nat timeout + 1) 0 s Hclock)
      as (res & n & s' & E & Hn); [lia | lia |].
    exists res, n, s'. split; [lia|].
    intros fuel Hfuel. exact (wait_loop_fuel _ _ _ _ _ _ fuel _ _ _ E Hfuel).
  - destruct (wait_loop_ends false
                ("Still present " ++ dquote ++ name s ++ dquote ++ " in "
                 ++ str timeout ++ " seconds")%string
                env timeout (Z.to_nat timeout + 1) 0 s Hclock)
      as (res & n & s' & E & Hn); [lia | lia |].
    exists res, n, s'. split; [lia|].
    intros fuel Hfuel. exact (wait_loop_fuel _ _ _ _ _ _ fuel _ _ _ E Hfuel).
Qed.

(** X16. When [wait_until_visible] returns, the element holds the result of
    its last search: the flag is set, the list is not empty, and the
    configuration is the one it started with. *)
Theorem wait_until_visible_returns_found (env : Environment) (timeout : Z) (fuel n : nat)
        (s s' : VisualElement) :
  wait_until_visible env timeout fuel s = Some (Returned, n, s') ->
  _searched s' = true /\ matches s' <> [] /\ same_config s s' /\ (1 <= n)%nat.
Proof.
  unfold wait_until_visible. cbv zeta. intro H.
  destruct (wait_loop_post _ _ _ _ _ _ _ _ _ _ _ H) as (Hn & Hc & Hf & Hne & _).
  split; [exact Hf|]. split; [|split; [exact Hc | lia]].
  destruct (matches s'); [discriminate | discriminate].
Qed.

(** X17. When [wait_until_not_visible] returns, the last search found
    nothing: the flag is set and the list is empty. *)
Theorem wait_until_not_visible_returns_gone (env : Environment) (timeout : Z)
        (fuel n : nat) (s s' : VisualElement) :
  wait_until_not_visible env timeout fuel s = Some (Returned, n, s') ->
  _searched s' = true /\ matches s' = [] /\ same_config s s' /\ (1 <= n)%nat.
Proof.
  unfold wait_until_not_visible. cbv zeta. intro H.
  destruct (wait_loop_post _ _ _ _ _ _ _ _ _ _ _ H) as (Hn & Hc & Hf & Hne & _).
  split; [exact Hf|]. split; [|split; [exact Hc | lia]].
  destruct (matches s'); [reflexivity | discriminate].
Qed.

(** X18. A wait gives up only on the clock: when it raises
    [TimeoutException] after [n] calls of [is_visible], the reading taken
    after the last call is at least [timeout] seconds after the start and
    every earlier reading was less; the message names the element; the last
    search found nothing (for [wait_until_visible]) or still found the
    element (for [wait_until_not_visible]). *)
Theorem wait_times_out_on_the_clock (env : Environment) (timeout : Z) (fuel n : nat)
        (s s' : VisualElement) (msg : string) :
  (wait_until_visible env timeout fuel s = Some (Raised (TimeoutException msg), n, s') ->
   msg = ("Cannot find " ++ dquote ++ name s ++ dquote ++ " in "
          ++ str timeout ++ " seconds")%string /\
   contains (name s) msg = true /\
   matches s' = [] /\
   (inject_Z timeout <= now env n - now env 0)%Q /\
   (forall j, (0 < j < n)%nat -> (now env j - now env 0 < inject_Z timeout)%Q)) /\
  (wait_until_not_visible env timeout fuel s
   = Some (Raised (TimeoutException msg), n, s') ->
   msg = ("Still present " ++ dquote ++ name s ++ dquote ++ " in "
          ++ str timeout ++ " seconds")%string /\
   contains (name s) msg = true /\
   matches s' <> [] /\
   (inject_Z timeout <= now env n - now env 0)%Q /\
   (forall j, (0 < j < n)%nat -> (now env j - now env 0 < inject_Z timeout)%Q)).
Proof.
  unfold wait_until_visible, wait_until_not_visible. cbv zeta.
  split; intro H;
    destruct (wait_loop_post _ _ _ _ _ _ _ _ _ _ _ H)
      as (Hn & Hc & Hm & Hf & Hne & Hlate & Hearly); subst msg.
  - split; [reflexivity|].
    split; [do 2 apply contains_app_r; apply contains_here|].
    split; [|split; assumption].
    destruct (matches s'); [reflexivity | discriminate].
  - split; [reflexivity|].
    split; [do 2 apply contains_app_r; apply contains_here|].
    split; [|split; assumption].
    destruct (matches s'); [discriminate | discriminate].
Qed.

(** X19. A [click] that taps has waited until the element was visible and
    taps the match at index [order] of the list of that last search, at its
    [x] and [y]; the order is then a valid index of that list, and the
    element is left as the wait left it. *)
Theorem click_taps_ordered_match (env : Environment) (timeout : Z) (fuel : nat)
        (s s'' : VisualElement) (tx ty : Z) :
  click env timeout fuel s = Some (Tapped tx ty, s'') ->
  exists n m,
    wait_until_clickable env timeout fuel s = Some (Returned, n, s'') /\
    0 <= order s < Z.of_nat (List.length (matches s'')) /\
    nth_error (matches s'') (Z.to_nat (order s)) = Some m /\
    tx = x m /\ ty = y m.
Proof.
  unfold click.
  destruct (wait_until_clickable env timeout fuel s) as [[[[|e] n] s']|] eqn:Hw;
    [|discriminate|discriminate].
  unfold wait_until_clickable, wait_until_visible in Hw. cbv zeta in Hw.
  destruct (wait_loop_post _ _ _ _ _ _ _ _ _ _ _ Hw)
    as (Hn & Hc & Hf & Hne & sp & Hsp & Hsearch).
  assert (Hne' : matches s' <> []) by (destruct (matches s'); discriminate).
  destruct (search_with_matches_checked _ sp s' tt Hsearch Hne') as (_ & Hord & _).
  unfold in_range in Hord. apply andb_true_iff in Hord.
  rewrite Z.leb_le, Z.ltb_lt in Hord.
  assert (Ho : order s' = order s) by apply Hc.
  assert (Hosp : order sp = order s) by apply Hsp.
  unfold __getitem__, bind.
  rewrite cached_or_search_unfold, Hf, Ho.
  unfold py_index.
  destruct ((0 <=? order s) && (order s <? Z.of_nat (List.length (matches s')))) eqn:Hin.
  - apply andb_true_iff in Hin. rewrite Z.leb_le, Z.ltb_lt in Hin.
    destruct (nth_error (matches s') (Z.to_nat (order s))) as [m|] eqn:Hnth.
    + intro H; inversion H; subst. exists n, m. repeat split; try lia. exact Hnth.
    + unfold get, raise. discriminate.
  - assert (Hneg : (- Z.of_nat (List.length (matches s')) <=? order s) && (order s <? 0)
                   = false).
    { apply andb_false_iff. right. apply Z.ltb_ge. lia. }
    rewrite Hneg. unfold get, raise. discriminate.
Qed.

(** X20. When the wait of [click] returns but the last search found no more
    than [order] matches, [click] taps nothing and fails with the index
    message, which then holds the index asked for and the number found. *)
Theorem click_order_above_matches (env : Environment) (timeout : Z) (fuel n : nat)
        (s s' : VisualElement) :
  wait_until_clickable env timeout fuel s = Some (Returned, n, s') ->
  Z.of_nat (List.length (matches s')) <= order s ->
  click env timeout fuel s =
  Some (ClickRaised
          (PyException
             (Exception ("Index above matches: " ++ str (order s) ++ " > "
                         ++ str (Z.of_nat (List.length (matches s')))))), s').
Proof.
  intros Hw Hlen. unfold click. rewrite Hw.
  unfold wait_until_clickable, wait_until_visible in Hw. cbv zeta in Hw.
  destruct (wait_loop_post _ _ _ _ _ _ _ _ _ _ _ Hw) as (_ & Hc & Hf & _).
  assert (Ho : order s' = order s) by apply Hc.
  unfold __getitem__, bind.
  rewrite cached_or_search_unfold, Hf, Ho.
  rewrite (py_index_above (matches s') (order s) Hlen).
  unfold get, raise. rewrite Ho. reflexivity.
Qed.

End Poll.

(** ** The properties above on concrete screens *)

Lemma clock_of_env_switch n before after :
  forall j, (now (env_switch n before after) 0 + inject_Z (Z.of_nat j)
             <= now (env_switch n before after) (S j))%Q.
Proof.
  intro j. cbn [now env_switch].
  rewrite <- inject_Z_plus, <- Zle_Qle. lia.
Defined.

Lemma failed_search_is_not_cached_witness :
  cached_or_search (one_file blank_screen)
    (snd (_search_all_matches (one_file blank_screen) (button_element 0 HORIZONTAL_ORDER)))
  = match _search_all_matches (one_file blank_screen)
            (snd (_search_all_matches (one_file blank_screen)
                    (button_element 0 HORIZONTAL_ORDER))) with
    | (Ok _, s') => (Ok (matches s'), s')
    | (Raise e', s') => (Raise e', s')
    end.
Proof.
  apply (proj2 (failed_search_is_not_cached (one_file blank_screen) (one_file blank_screen)
                  (button_element 0 HORIZONTAL_ORDER))
               (Exception "Disposal priority not valid: 2")).
  vm_compute. reflexivity.
Defined.

Lemma scale_loop_winner_witness :
  (7 # 10 < 9 # 10)%Q /\
  20 <= fst (shape (mkImage 400 200 (peaks screen_small))) /\
  20 <= snd (shape (mkImage 400 200 (peaks screen_small))).
Proof.
  destruct (@scale_loop_winner toy_cv screen_small button 20 20 CV_CCOEFF (7 # 10) scales
              (9 # 10) (10, 10) (1000 # 200) (mkImage 400 200 (peaks screen_small)))
    as (Hv & Hh & Hw & _).
  - vm_compute. reflexivity.
  - split; [exact Hv|]. split; [exact Hh | exact Hw].
Defined.

Lemma match_is_first_in_order_witness :
  match_ (one_file blank_screen) found_two
  = (Ok (mkMatch 50 110 20 20 (99 # 100)), found_two) /\
  Forall (fun m' => (msimilarity m' <= 99 # 100)%Q) [mkMatch 50 210 20 20 (98 # 100)].
Proof.
  destruct (match_is_first_in_order (one_file (screen_column 2)) (one_file blank_screen)
              (button_element 5 SIMILARITY_ORDER) found_two tt
              (mkMatch 50 110 20 20 (99 # 100)) [mkMatch 50 210 20 20 (98 # 100)])
    as (Hm & Hsim & _).
  - vm_compute. reflexivity.
  - reflexivity.
  - split; [exact Hm | exact (Hsim eq_refl)].
Defined.

Lemma is_visible_then_len_witness :
  __len__ (one_file blank_screen) found_two = (Ok 2, found_two) /\
  true = (0 <? 2).
Proof.
  apply (is_visible_then_len (one_file (screen_column 2)) (one_file blank_screen)
           (button_element 5 SIMILARITY_ORDER) found_two true).
  vm_compute. reflexivity.
Defined.

Lemma plain_path_search_is_bounded_witness :
  (List.length (matches (snd (_search_all_matches (one_file (screen_column 20))
                                (button_element 0 SIMILARITY_ORDER))))
   <= S (Z.to_nat (max_occurrences (button_element 0 SIMILARITY_ORDER))))%nat /\
  (screenshots (driver (snd (_search_all_matches (one_file (screen_column 20))
                               (button_element 0 SIMILARITY_ORDER))))
   <= S (screenshots (driver (button_element 0 SIMILARITY_ORDER))))%nat.
Proof.
  apply (plain_path_search_is_bounded (one_file (screen_column 20))
           (button_element 0 SIMILARITY_ORDER)).
  reflexivity.
Defined.

Lemma get_bounds_well_formed_witness :
  fst (fst (fst (_get_bounds (10, 10) 20 20 (1000 # 200))))
  <= snd (fst (_get_bounds (10, 10) 20 20 (1000 # 200))) /\
  snd (fst (fst (_get_bounds (10, 10) 20 20 (1000 # 200))))
  <= snd (_get_bounds (10, 10) 20 20 (1000 # 200)).
Proof.
  apply (get_bounds_well_formed (10, 10) 20 20 (1000 # 200)).
  - unfold Qle. simpl. lia.
  - lia.
  - lia.
Defined.

Lemma match_at_full_scale_is_centred_witness :
  _get_bounds (40, 100) 20 20 (1000 # 1000) = (40, 100, 60, 120) /\
  x (new_match (40, 100) 20 20 (1000 # 1000) (99 # 100)) = 50 /\
  y (new_match (40, 100) 20 20 (1000 # 1000) (99 # 100)) = 110.
Proof.
  destruct (match_at_full_scale_is_centred (40, 100) 20 20 (1000 # 1000) (99 # 100))
    as (Hb & Hx & Hy & _).
  - unfold Qeq. reflexivity.
  - lia.
  - lia.
  - split; [exact Hb|]. split; [exact Hx | exact Hy].
Defined.

Lemma match_point_inside_box_witness :
  fst (fst (fst (_get_bounds (10, 10) 20 20 (1000 # 200))))
  <= x (new_match (10, 10) 20 20 (1000 # 200) (9 # 10))
  <= snd (fst (_get_bounds (10, 10) 20 20 (1000 # 200))) /\
  snd (fst (fst (_get_bounds (10, 10) 20 20 (1000 # 200))))
  <= y (new_match (10, 10) 20 20 (1000 # 200) (9 # 10))
  <= snd (_get_bounds (10, 10) 20 20 (1000 # 200)).
Proof.
  apply (match_point_inside_box (10, 10) 20 20 (1000 # 200) (9 # 10)).
  - unfold Qle. simpl. lia.
  - simpl. lia.
  - simpl. lia.
  - lia.
  - lia.
Defined.

Lemma search_with_matches_has_valid_config_witness :
  (disposal (button_element 5 SIMILARITY_ORDER) = SIMILARITY_ORDER \/
   disposal (button_element 5 SIMILARITY_ORDER) = VERTICAL_ORDER) /\
  0 <= order (button_element 5 SIMILARITY_ORDER)
  < max_occurrences (button_element 5 SIMILARITY_ORDER) /\
  Forall (fun p => isfile (one_file (screen_column 2)) p = true)
         (glob (one_file (screen_column 2)) (path (button_element 5 SIMILARITY_ORDER))).
Proof.
  apply (search_with_matches_has_valid_config (one_file (screen_column 2))
           (button_element 5 SIMILARITY_ORDER) found_two tt).
  - vm_compute. reflexivity.
  - discriminate.
Defined.

Lemma waits_end_within_timeout_witness :
  exists res n s',
    (n <= Z.to_nat 3 + 1)%nat /\
    forall fuel, (Z.to_nat 3 + 1 <= fuel)%nat ->
                 wait_until_visible (env_switch 20 blank_screen (screen_column 2)) 3 fuel
                                    (button_element 1 SIMILARITY_ORDER)
                 = Some (res, n, s').
Proof.
  exact (proj1 (waits_end_within_timeout (env_switch 20 blank_screen (screen_column 2)) 3
                  (button_element 1 SIMILARITY_ORDER)
                  (clock_of_env_switch 20 blank_screen (screen_column 2)))).
Defined.

Lemma wait_until_visible_returns_found_witness :
  _searched (two_buttons 1) = true /\ matches (two_buttons 1) <> [] /\
  same_config (button_element 1 SIMILARITY_ORDER) (two_buttons 1) /\ (1 <= 1)%nat.
Proof.
  apply (wait_until_visible_returns_found (env_switch 0 blank_screen (screen_column 2))
           10 5 1 (button_element 1 SIMILARITY_ORDER) (two_buttons 1)).
  vm_compute. reflexivity.
Defined.

Lemma wait_until_not_visible_returns_gone_witness :
  _searched (no_button 1 2) = true /\ matches (no_button 1 2) = [] /\
  same_config (button_element 1 SIMILARITY_ORDER) (no_button 1 2) /\ (1 <= 2)%nat.
Proof.
  apply (wait_until_not_visible_returns_gone
           (env_switch 1 (screen_column 2) blank_screen) 3 20 2
           (button_element 1 SIMILARITY_ORDER) (no_button 1 2)).
  vm_compute. reflexivity.
Defined.

Lemma wait_times_out_on_the_clock_witness :
  contains "button" ("Cannot find " ++ dquote ++ "button" ++ dquote ++ " in 3 seconds")
  = true /\
  matches (no_button 1 3) = [] /\
  (inject_Z 3 <= now (env_switch 20 blank_screen (screen_column 2)) 3
                 - now (env_switch 20 blank_screen (screen_column 2)) 0)%Q.
Proof.
  destruct (proj1 (wait_times_out_on_the_clock
                     (env_switch 20 blank_screen (screen_column 2)) 3 20 3
                     (button_element 1 SIMILARITY_ORDER) (no_button 1 3)
                     ("Cannot find " ++ dquote ++ "button" ++ dquote ++ " in 3 seconds")))
    as (_ & Hname & Hms & Hlate & _).
  - vm_compute. reflexivity.
  - split; [exact Hname|]. split; [exact Hms | exact Hlate].
Defined.

Lemma click_taps_ordered_match_witness :
  exists n m,
    wait_until_clickable (env_switch 0 blank_screen (screen_column 2)) 10 5
                         (button_element 1 SIMILARITY_ORDER)
    = Some (Returned, n, two_buttons 1) /\
    0 <= order (button_element 1 SIMILARITY_ORDER)
    < Z.of_nat (List.length (matches (two_buttons 1))) /\
    nth_error (matches (two_buttons 1))
              (Z.to_nat (order (button_element 1 SIMILARITY_ORDER))) = Some m /\
    50 = x m /\ 210 = y m.
Proof.
  apply (click_taps_ordered_match (env_switch 0 blank_screen (screen_column 2)) 10 5
           (button_element 1 SIMILARITY_ORDER) (two_buttons 1) 50 210).
  vm_compute. reflexivity.
Defined.

Lemma click_order_above_matches_witness :
  click (env_switch 0 blank_screen (screen_column 2)) 10 5
        (button_element 5 SIMILARITY_ORDER)
  = Some (ClickRaised (PyException (Exception "Index above matches: 5 > 2")),
          two_buttons 5).
Proof.
  apply (click_order_above_matches (env_switch 0 blank_screen (screen_column 2)) 10 5 1
           (button_element 5 SIMILARITY_ORDER) (two_buttons 5)).
  - vm_compute. reflexivity.
  - simpl. lia.
Defined.

(** ** A wait on a configuration that the search refuses *)

Section PollConfig.
Context `{CV : OpenCV}.

Lemma search_refuses_config (wd : World) (s : VisualElement) p ps :
  glob wd (path s) = p :: ps ->
  in_range (disposal s) 2 = false \/ in_range (order s) (max_occurrences s) = false ->
  exists msg,
    _search_all_matches wd s
    = (Raise (Exception msg), set_matches (set_searched s false) []).
Proof.
  intros Hglob Hbad.
  destruct (search_first_template wd s p ps Hglob) as (Ht & Hd & Ho).
  destruct (isfile wd p) eqn:Hf; [|eexists; exact (Ht eq_refl)].
  destruct (in_range (disposal s) 2) eqn:H2; [|eexists; exact (Hd eq_refl eq_refl)].
  destruct (in_range (order s) (max_occurrences s)) eqn:Hr.
  - destruct Hbad; discriminate.
  - eexists. exact (Ho eq_refl eq_refl eq_refl).
Qed.

(** X21. A wait does not retry a configuration error: when the pattern
    resolves to at least one path at the first call of [is_visible] and the
    disposal is outside [range(2)] (as [HORIZONTAL_ORDER] is) or the order is
    outside [range(max_occurrences)], [wait_until_visible],
    [wait_until_not_visible] and [click] fail at once with the exception of
    the search, after that one call, whatever the timeout and without a
    screenshot or a tap. *)
Theorem waits_fail_at_once_on_bad_config (env : Environment) (timeout : Z) (fuel : nat)
        (s : VisualElement) (p : string) (ps : list string) :
  glob (screen_at env 0) (path s) = p :: ps ->
  in_range (disposal s) 2 = false \/ in_range (order s) (max_occurrences s) = false ->
  exists msg,
    wait_until_visible env timeout (S fuel) s
    = Some (Raised (PyException (Exception msg)), 1%nat,
            set_matches (set_searched s false) []) /\
    wait_until_not_visible env timeout (S fuel) s
    = Some (Raised (PyException (Exception msg)), 1%nat,
            set_matches (set_searched s false) []) /\
    click env timeout (S fuel) s
    = Some (ClickRaised (PyException (Exception msg)),
            set_matches (set_searched s false) []).
Proof.
  intros Hglob Hbad.
  destruct (search_refuses_config (screen_at env 0) s p ps Hglob Hbad) as [msg Hs].
  exists msg.
  assert (Hv : is_visible (screen_at env 0) s
               = (Raise (Exception msg), set_matches (set_searched s false) [])).
  { unfold is_visible, bind. rewrite Hs. reflexivity. }
  unfold click, wait_until_clickable, wait_until_visible, wait_until_not_visible.
  cbv zeta. cbn [wait_loop]. rewrite Hv. repeat split.
Qed.

End PollConfig.

Lemma waits_fail_at_once_on_bad_config_witness :
  exists msg,
    wait_until_visible (env_switch 0 blank_screen (screen_column 2)) 10 5
                       (button_element 0 HORIZONTAL_ORDER)
    = Some (Raised (PyException (Exception msg)), 1%nat,
            set_matches (set_searched (button_element 0 HORIZONTAL_ORDER) false) []) /\
    wait_until_not_visible (env_switch 0 blank_screen (screen_column 2)) 10 5
                           (button_element 0 HORIZONTAL_ORDER)
    = Some (Raised (PyException (Exception msg)), 1%nat,
            set_matches (set_searched (button_element 0 HORIZONTAL_ORDER) false) []) /\
    click (env_switch 0 blank_screen (screen_column 2)) 10 5
          (button_element 0 HORIZONTAL_ORDER)
    = Some (ClickRaised (PyException (Exception msg)),
            set_matches (set_searched (button_element 0 HORIZONTAL_ORDER) false) []).
Proof.
  apply (waits_fail_at_once_on_bad_config (env_switch 0 blank_screen (screen_column 2))
           10 4 (button_element 0 HORIZONTAL_ORDER) "button.png" []).
  - reflexivity.
  - left. reflexivity.
Defined.
